(** * DiffusionModels: the simulation engine of [js/simulation.js]

    A shallow embedding of the [DiffusionSim] class (random-walk stepper,
    per-case boundary handling, histogram and analytical solution) and the
    properties its specification states about it.

    Modelling conventions.
    - A JavaScript number is a real number ([R]): arithmetic is exact, the
      rounding of IEEE doubles and of the [Float32Array] store is not
      modelled, and neither are NaN and the infinities.
    - [Math.random()] reads an injected sequence [random : nat -> R]; the
      position in that sequence is threaded through every method that draws
      from it (the [Rand] monad below).
    - The particle buffer [atoms] is a list of reals. A typed array drops
      writes outside its bounds and reads [undefined] there, which is what
      stdpp's [alter], [<[i:=x]>] and [!!] do on lists.
    - Counts and indices ([numAtoms], loop counters) are naturals; [caseNum]
      is an integer compared with [===]. *)

From Stdlib Require Import Reals Lra Lia ZArith Zfloor.
From stdpp Require Import base list.

Local Open Scope R_scope.

(** ** Comparisons of JavaScript numbers, as booleans *)

Definition Rltb (x y : R) : bool := if Rlt_dec x y then true else false.
Definition Rgtb (x y : R) : bool := if Rgt_dec x y then true else false.
Definition Rgeb (x y : R) : bool := if Rge_dec x y then true else false.
Definition Rleb (x y : R) : bool := if Rle_dec x y then true else false.

(** ** Math utilities (source lines 2-8) *)

Definition erfc (x : R) : R :=
  let ax := Rabs x in
  let t := 1 / (1 + 0.3275911 * ax) in
  let poly :=
    t * (0.254829592 + t * (-0.284496736 + t * (1.421413741
         + t * (-1.453152027 + t * 1.061405429)))) in
  let r := poly * exp ((- ax) * ax) in
  if Rgeb x 0 then r else 2 - r.

(** ** Constants (source lines 11-15) *)

Definition DOMAIN_LENGTH : R := 100.
Definition VISIBLE_LENGTH : R := 10.
Definition DOMAIN_WIDTH : R := 4.
Definition NUM_BINS : nat := 40.
Definition MAX_ATOMS : nat := 5000.

(** ** The random source *)

(** A computation that may call [Math.random()]: it receives the number of
    draws made so far and returns its result with the new number. *)
Definition Rand (A : Type) : Type := nat -> A * nat.

Definition ret {A : Type} (a : A) : Rand A := fun k => (a, k).

Definition bind {A B : Type} (m : Rand A) (f : A -> Rand B) : Rand B :=
  fun k => let (a, k') := m k in f a k'.

Notation "x <- m ;; f" := (bind m (fun x => f))
  (at level 100, m at next level, right associativity).

(** [for (let i = lo; i < lo + count; i++) body] over the index list
    [seq lo count], with the loop-carried value [a]. *)
Fixpoint forM {A : Type} (body : nat -> A -> Rand A) (idxs : list nat) (a : A)
  : Rand A :=
  match idxs with
  | [] => ret a
  | i :: rest => a' <- body i a ;; forM body rest a'
  end.

(** The same loop for a body that draws no random number. *)
Fixpoint for_each {A : Type} (body : nat -> A -> A) (idxs : list nat) (a : A) : A :=
  match idxs with
  | [] => a
  | i :: rest => for_each body rest (body i a)
  end.

(** ** The engine state (source lines 19-29) *)

Record DiffusionSim : Type := mkSim {
  caseNum : Z;
  gamma : R;
  lambda : R;
  numAtoms : nat;
  time : R;
  running : bool;
  speed : R;
  atoms : list R
}.

Definition set_caseNum (n : Z) (s : DiffusionSim) : DiffusionSim :=
  mkSim n (gamma s) (lambda s) (numAtoms s) (time s) (running s) (speed s) (atoms s).
Definition set_gamma (g : R) (s : DiffusionSim) : DiffusionSim :=
  mkSim (caseNum s) g (lambda s) (numAtoms s) (time s) (running s) (speed s) (atoms s).
Definition set_lambda (l : R) (s : DiffusionSim) : DiffusionSim :=
  mkSim (caseNum s) (gamma s) l (numAtoms s) (time s) (running s) (speed s) (atoms s).
Definition set_numAtoms (n : nat) (s : DiffusionSim) : DiffusionSim :=
  mkSim (caseNum s) (gamma s) (lambda s) n (time s) (running s) (speed s) (atoms s).
Definition set_time (t : R) (s : DiffusionSim) : DiffusionSim :=
  mkSim (caseNum s) (gamma s) (lambda s) (numAtoms s) t (running s) (speed s) (atoms s).
Definition set_running (b : bool) (s : DiffusionSim) : DiffusionSim :=
  mkSim (caseNum s) (gamma s) (lambda s) (numAtoms s) (time s) b (speed s) (atoms s).
Definition set_speed (v : R) (s : DiffusionSim) : DiffusionSim :=
  mkSim (caseNum s) (gamma s) (lambda s) (numAtoms s) (time s) (running s) v (atoms s).
Definition set_atoms (a : list R) (s : DiffusionSim) : DiffusionSim :=
  mkSim (caseNum s) (gamma s) (lambda s) (numAtoms s) (time s) (running s) (speed s) a.

(** How a method call ends: normally, or by a thrown error. Either way the
    engine object is left in some state. The error names are those of the
    specification; no method of the source contains a [throw]. *)
Inductive error : Type := InvalidCase | CapacityExceeded | InvalidParameter.

Inductive completion : Type :=
| Normal (s : DiffusionSim)
| Throw (e : error) (s : DiffusionSim).

(** ** Getters (source lines 31-35) *)

Definition D (s : DiffusionSim) : R := gamma s * lambda s * lambda s / 6.
Definition domainMin (s : DiffusionSim) : R :=
  if (caseNum s =? 2)%Z then - DOMAIN_LENGTH / 2 else 0.
Definition domainMax (s : DiffusionSim) : R :=
  if (caseNum s =? 2)%Z then DOMAIN_LENGTH / 2 else DOMAIN_LENGTH.
Definition visibleMin (s : DiffusionSim) : R :=
  if (caseNum s =? 2)%Z then - VISIBLE_LENGTH / 2 else 0.
Definition visibleMax (s : DiffusionSim) : R :=
  if (caseNum s =? 2)%Z then VISIBLE_LENGTH / 2 else VISIBLE_LENGTH.

(** ** Boundary rules of [step] (source lines 86-107) *)

(** Lines 86-97: the x rule, on the value read back from the buffer. *)
Definition boundaryX (caseNum : Z) (xMin xMax x : R) : R :=
  if (caseNum =? 1)%Z then
    let x := if Rltb x 0 then 0 else x in
    if Rgtb x xMax then xMax else x
  else if (caseNum =? 2)%Z then
    let x := if Rltb x xMin then xMin else x in
    if Rgtb x xMax then xMax else x
  else
    let x := if Rltb x 0 then - x else x in
    if Rgtb x xMax then xMax else x.

(** Lines 102-105: the rule shared by y and z. *)
Definition wrap (hw y : R) : R :=
  if Rltb y (- hw) then y + DOMAIN_WIDTH
  else if Rgtb y hw then y - DOMAIN_WIDTH
  else y.

(** ** Histogram helpers (source lines 122-123) *)

(** [bins[b]++] for a number [b]: an index below zero or past the end of the
    typed array changes nothing. *)
Definition incr (b : Z) (bins : list nat) : list nat :=
  if (0 <=? b)%Z then alter S (Z.to_nat b) bins else bins.

Section Engine.

(** The values [Math.random()] returns, in the order of the calls. *)
Variable random : nat -> R.

Definition Math_random : Rand R := fun k => (random k, S k).

(** The body shared by the loops of [reset] (lines 43-45) and
    [setNumAtoms] (lines 55-57). *)
Definition seedAtom (i : nat) (a : list R) : Rand (list R) :=
  let W := DOMAIN_WIDTH in
  let a := <[(i * 3)%nat := 0]> a in
  r1 <- Math_random ;;
  let a := <[(i * 3 + 1)%nat := (r1 - 0.5) * W]> a in
  r2 <- Math_random ;;
  let a := <[(i * 3 + 2)%nat := (r2 - 0.5) * W]> a in
  ret a.

(** [reset] (lines 39-47). *)
Definition reset (s : DiffusionSim) : Rand DiffusionSim :=
  let s := set_time 0 s in
  a <- forM seedAtom (seq 0 (numAtoms s)) (atoms s) ;;
  ret (set_atoms a s).

(** The constructor (lines 19-29). *)
Definition new_DiffusionSim : Rand DiffusionSim :=
  reset (mkSim 1 20 0.50 2000 0 false 1.0 (replicate (MAX_ATOMS * 3) 0)).

(** [setCase] (line 37). *)
Definition setCase (n : Z) (s : DiffusionSim) : Rand completion :=
  let s := set_caseNum n s in
  s <- reset s ;;
  ret (Normal s).

(** [setNumAtoms] (lines 49-60). *)
Definition setNumAtoms (n : nat) (s : DiffusionSim) : Rand completion :=
  let old := numAtoms s in
  let s := set_numAtoms n s in
  if (old <? n)%nat then
    a <- forM seedAtom (seq old (n - old)) (atoms s) ;;
    ret (Normal (set_atoms a s))
  else ret (Normal s).

(** One jumping particle (lines 78-107): the displacement, then the x
    rule and the periodic wrap of y and z. *)
Definition jump (caseNum : Z) (lam xMin xMax hw : R) (i : nat) (a : list R)
  : Rand (list R) :=
  let idx := (i * 3)%nat in
  u <- Math_random ;;
  let cosT := 2 * u - 1 in
  let sinT := sqrt (1 - cosT * cosT) in
  v <- Math_random ;;
  let phi := 6.283185307 * v in
  let a := alter (fun c => c + lam * sinT * cos phi) idx a in
  let a := alter (fun c => c + lam * sinT * sin phi) (idx + 1)%nat a in
  let a := alter (fun c => c + lam * cosT) (idx + 2)%nat a in
  let a := alter (boundaryX caseNum xMin xMax) idx a in
  let a := alter (wrap hw) (idx + 1)%nat a in
  let a := alter (wrap hw) (idx + 2)%nat a in
  ret a.

(** The body of the inner loop (lines 77-107). *)
Definition visit (caseNum : Z) (lam xMin xMax hw p : R) (i : nat) (a : list R)
  : Rand (list R) :=
  r <- Math_random ;;
  if Rgeb r p then ret a
  else jump caseNum lam xMin xMax hw i a.

(** [step] (lines 62-111). *)
Definition step (dt : R) (s : DiffusionSim) : Rand DiffusionSim :=
  if negb (running s) then ret s
  else
    let simDt := dt * speed s in
    let subSteps := Z.max 1 (Zceil (gamma s * simDt)) in
    let subDt := simDt / IZR subSteps in
    let lam := lambda s in
    let xMin := domainMin s in
    let xMax := domainMax s in
    let hw := DOMAIN_WIDTH / 2 in
    let n := numAtoms s in
    let caseNum := caseNum s in
    a <- forM (fun _ a =>
                 let p := gamma s * subDt in
                 forM (visit caseNum lam xMin xMax hw p) (seq 0 n) a)
              (seq 0 (Z.to_nat subSteps)) (atoms s) ;;
    ret (set_time (time s + simDt) (set_atoms a s)).

End Engine.

(** [getHistogram] (lines 114-126). A slot past the end of the buffer reads
    [undefined]: both comparisons of line 121 are then false, [b] is NaN and
    [bins[NaN]++] changes nothing. *)
Definition getHistogram (s : DiffusionSim) : list nat :=
  let bins := replicate NUM_BINS 0%nat in
  let lo := visibleMin s in
  let hi := visibleMax s in
  let binW := (hi - lo) / INR NUM_BINS in
  for_each (fun i bins =>
              match atoms s !! (i * 3)%nat with
              | Some x =>
                  if Rltb x lo || Rgeb x hi then bins
                  else
                    let b := Z.min (Zfloor ((x - lo) / binW))
                                   (Z.of_nat NUM_BINS - 1) in
                    incr b bins
              | None => bins
              end)
           (seq 0 (numAtoms s)) bins.

(** [countInView] (lines 129-137). *)
Definition countInView (s : DiffusionSim) : nat :=
  let lo := visibleMin s in
  let hi := visibleMax s in
  for_each (fun i c =>
              match atoms s !! (i * 3)%nat with
              | Some x => if Rgeb x lo && Rleb x hi then S c else c
              | None => c
              end)
           (seq 0 (numAtoms s)) 0%nat.

(** [analyticalAt] (lines 142-154). *)
Definition analyticalAt (x : R) (s : DiffusionSim) : R :=
  let Dt := D s * time s in
  if (caseNum s =? 1)%Z then
    if Rltb Dt 1e-9 then (if Rltb x 0.01 then 1 else 0)
    else erfc (x / (2 * sqrt Dt))
  else if Rltb Dt 1e-9 then 0
  else
    let gauss := exp (- (x * x) / (4 * Dt)) in
    let pre := if (caseNum s =? 2)%Z
               then 1 / (2 * sqrt (PI * Dt))
               else 1 / sqrt (PI * Dt) in
    pre * gauss.

(** ** Notions used in the statements *)

(** What [Math.random()] promises: a value in [[0, 1)]. *)
Definition uniform01 (random : nat -> R) : Prop := forall k, 0 <= random k < 1.

(** The quantities [step(dt)] derives before its loops (lines 64-66, 75):
    the number of sub-steps and the jump probability of one sub-step. *)
Definition subSteps (dt : R) (s : DiffusionSim) : Z :=
  Z.max 1 (Zceil (gamma s * (dt * speed s))).
Definition jumpProbability (dt : R) (s : DiffusionSim) : R :=
  gamma s * (dt * speed s / IZR (subSteps dt s)).

(** The direction drawn by the jump that starts at draw [k] (lines 79-81). *)
Definition cosT_at (random : nat -> R) (k : nat) : R := 2 * random k - 1.
Definition sinT_at (random : nat -> R) (k : nat) : R :=
  sqrt (1 - cosT_at random k * cosT_at random k).
Definition phi_at (random : nat -> R) (k : nat) : R := 6.283185307 * random (S k).

(** The particles the histogram is meant to count: active, stored inside
    the buffer, with [visibleMin <= x < visibleMax]. *)
Definition inWindow (s : DiffusionSim) (i : nat) : bool :=
  match atoms s !! (i * 3)%nat with
  | Some x => Rgeb x (visibleMin s) && Rltb x (visibleMax s)
  | None => false
  end.

(** A random source whose every draw is 1/2, and the engine the constructor
    builds from it. *)
Definition coin : nat -> R := fun _ => 0.5.
Definition sim0 : DiffusionSim := fst (new_DiffusionSim coin 0%nat).

(** Small engines for worked examples: a source whose every draw is 0 (so
    that every particle jumps, straight down the z axis), one running
    particle near the lower face of the box, and four paused particles
    around the visible window of case 1. *)
Definition lowDraws : nat -> R := fun _ => 0.
Definition one_particle : DiffusionSim :=
  mkSim 3 20 0.5 1 0 true 1 [0; 0; -1.8].
Definition four_particles : DiffusionSim :=
  mkSim 1 20 0.5 4 0 false 1 [0.1; 0; 0; 9.9; 0; 0; 10; 0; 0; -1; 0; 0].

(** A running engine with a single particle at [(x, y, z)], for worked
    steps in each case. *)
Definition probe (c : Z) (x y z : R) : DiffusionSim :=
  mkSim c 20 0.5 1 0 true 1 [x; y; z].

(** ** Invariants of the particle buffer *)

(** Every active particle that has an x slot lies in the domain of the
    active case. *)
Definition inDomain (s : DiffusionSim) : Prop :=
  forall i x, (i < numAtoms s)%nat -> atoms s !! (i * 3)%nat = Some x ->
              domainMin s <= x <= domainMax s.

(** Every active particle has its y and z, where stored, in the box
    [[-W/2, W/2]]. *)
Definition inBox (s : DiffusionSim) : Prop :=
  forall i c, (i < numAtoms s)%nat ->
              atoms s !! (i * 3 + 1)%nat = Some c \/
              atoms s !! (i * 3 + 2)%nat = Some c ->
              - (DOMAIN_WIDTH / 2) <= c <= DOMAIN_WIDTH / 2.

(** Particle [i] of buffer [a] is where the seeding loops put it: on the
    plane [x = 0], with y and z in the box [[-W/2, W/2]]. *)
Definition seededAt (a : list R) (i : nat) : Prop :=
  (forall x, a !! (i * 3)%nat = Some x -> x = 0) /\
  (forall c, a !! (i * 3 + 1)%nat = Some c \/ a !! (i * 3 + 2)%nat = Some c ->
             - (DOMAIN_WIDTH / 2) <= c <= DOMAIN_WIDTH / 2).

(** The engine as the constructor sizes it: the active count within the
    capacity, the buffer of three slots per particle, the particles inside
    the domain and the box. *)
Definition wellFormed (s : DiffusionSim) : Prop :=
  (numAtoms s <= MAX_ATOMS)%nat /\
  length (atoms s) = (MAX_ATOMS * 3)%nat /\
  inDomain s /\ inBox s.

(** The engine states that calls of the engine's methods and assignments
    to its parameter fields produce from a newly constructed engine, with
    the number of draws made so far. Counts stay within [MAX_ATOMS] and a
    step is taken with a jump length of at most the box width. *)
Inductive reachable (random : nat -> R) : DiffusionSim -> nat -> Prop :=
| reach_new k :
    reachable random (fst (new_DiffusionSim random k))
              (snd (new_DiffusionSim random k))
| reach_reset s k :
    reachable random s k ->
    reachable random (fst (reset random s k)) (snd (reset random s k))
| reach_setCase n s k s' :
    reachable random s k ->
    fst (setCase random n s k) = Normal s' ->
    reachable random s' (snd (setCase random n s k))
| reach_setNumAtoms n s k s' :
    reachable random s k ->
    (n <= MAX_ATOMS)%nat ->
    fst (setNumAtoms random n s k) = Normal s' ->
    reachable random s' (snd (setNumAtoms random n s k))
| reach_step dt s k :
    reachable random s k ->
    - DOMAIN_WIDTH <= lambda s <= DOMAIN_WIDTH ->
    reachable random (fst (step random dt s k)) (snd (step random dt s k))
| reach_parameters g l v s k :
    reachable random s k ->
    reachable random (set_gamma g (set_lambda l (set_speed v s))) k
| reach_running b s k :
    reachable random s k ->
    reachable random (set_running b s) k.

(** ** Windows of the histogram and of [countInView] *)

(** The test of [countInView] (line 134): both ends included. *)
Definition inView (s : DiffusionSim) (i : nat) : bool :=
  match atoms s !! (i * 3)%nat with
  | Some x => Rgeb x (visibleMin s) && Rleb x (visibleMax s)
  | None => false
  end.

(** A particle exactly on the upper end of the visible window. *)
Definition atVisibleMax (s : DiffusionSim) (i : nat) : bool :=
  match atoms s !! (i * 3)%nat with
  | Some x => Rgeb x (visibleMax s) && Rleb x (visibleMax s)
  | None => false
  end.

(** Particle [i] lies in the interval of bin [b]: [NUM_BINS] intervals of
    equal width, closed below and open above, from [visibleMin] on. *)
Definition inBin (s : DiffusionSim) (b : nat) (i : nat) : bool :=
  let binW := (visibleMax s - visibleMin s) / INR NUM_BINS in
  match atoms s !! (i * 3)%nat with
  | Some x => Rgeb x (visibleMin s + INR b * binW)
              && Rltb x (visibleMin s + (INR b + 1) * binW)
  | None => false
  end.

(** ** Callers of the engine *)

(** [readControls] of [js/main.js] (lines 69-75). The four arguments are the
    numbers [parseFloat] and [parseInt] read from the sliders. *)
Definition readControls (random : nat -> R)
           (gammaValue lambdaValue speedValue : R) (newN : nat)
           (s : DiffusionSim) : Rand completion :=
  let s := set_gamma gammaValue s in
  let s := set_lambda (lambdaValue / 100) s in
  let s := set_speed (speedValue / 10) s in
  if negb (newN =? numAtoms s)%nat then setNumAtoms random newN s
  else ret (Normal s).

(** The bars [PlotManager.draw] of [js/renderer.js] derives from the
    histogram (lines 156-188): in case 1 the counts divided by the count of
    bin 0, or by 1 when that bin is empty; otherwise the counts divided by
    [N * binW], a density. [getHistogram] always returns [NUM_BINS] bins, so
    the loops over [i < NUM_BINS] read every bin once. *)
Definition histPlot (s : DiffusionSim) : list R :=
  let xRange := visibleMax s - visibleMin s in
  let hist := getHistogram s in
  let binW_data := xRange / INR NUM_BINS in
  let N := numAtoms s in
  if (caseNum s =? 1)%Z then
    let peak := match hist !! 0%nat with
                | Some (S h) => INR (S h)
                | _ => 1
                end in
    (fun h => INR h / peak) <$> hist
  else
    (fun h => INR h / (INR N * binW_data)) <$> hist.


(** * Properties *)

(** ** Basic facts *)

Lemma Rltb_true x y : x < y -> Rltb x y = true.
Proof. intros H. unfold Rltb. destruct (Rlt_dec x y); [reflexivity | lra]. Qed.

Lemma Rltb_false x y : y <= x -> Rltb x y = false.
Proof. intros H. unfold Rltb. destruct (Rlt_dec x y); [lra | reflexivity]. Qed.

Lemma Rgtb_true x y : x > y -> Rgtb x y = true.
Proof. intros H. unfold Rgtb. destruct (Rgt_dec x y); [reflexivity | lra]. Qed.

Lemma Rgtb_false x y : x <= y -> Rgtb x y = false.
Proof. intros H. unfold Rgtb. destruct (Rgt_dec x y); [lra | reflexivity]. Qed.

Lemma Rgeb_true x y : x >= y -> Rgeb x y = true.
Proof. intros H. unfold Rgeb. destruct (Rge_dec x y); [reflexivity | lra]. Qed.

Lemma Rgeb_false x y : x < y -> Rgeb x y = false.
Proof. intros H. unfold Rgeb. destruct (Rge_dec x y); [lra | reflexivity]. Qed.

Lemma Rleb_true x y : x <= y -> Rleb x y = true.
Proof. intros H. unfold Rleb. destruct (Rle_dec x y); [reflexivity | lra]. Qed.

Lemma Rleb_false x y : y < x -> Rleb x y = false.
Proof. intros H. unfold Rleb. destruct (Rle_dec x y); [lra | reflexivity]. Qed.

(** Decide every comparison in the goal and close the branches that the
    hypotheses contradict. *)
Ltac rcases :=
  unfold Rltb, Rgtb, Rgeb, Rleb;
  repeat match goal with
         | |- context [Rlt_dec ?a ?b] => destruct (Rlt_dec a b)
         | |- context [Rgt_dec ?a ?b] => destruct (Rgt_dec a b)
         | |- context [Rge_dec ?a ?b] => destruct (Rge_dec a b)
         | |- context [Rle_dec ?a ?b] => destruct (Rle_dec a b)
         end;
  try reflexivity; try lra.

Lemma bind_run {A B : Type} (m : Rand A) (f : A -> Rand B) (k : nat) :
  bind m f k = f (fst (m k)) (snd (m k)).
Proof. unfold bind. destruct (m k); reflexivity. Qed.

Lemma domain_bounds s :
  (caseNum s = 2%Z /\ domainMin s = -50 /\ domainMax s = 50) \/
  (caseNum s <> 2%Z /\ domainMin s = 0 /\ domainMax s = 100).
Proof.
  unfold domainMin, domainMax, DOMAIN_LENGTH.
  destruct (Z.eqb_spec (caseNum s) 2); [left | right]; repeat split; auto; lra.
Qed.

Lemma visible_bounds s :
  (caseNum s = 2%Z /\ visibleMin s = -5 /\ visibleMax s = 5) \/
  (caseNum s <> 2%Z /\ visibleMin s = 0 /\ visibleMax s = 10).
Proof.
  unfold visibleMin, visibleMax, VISIBLE_LENGTH.
  destruct (Z.eqb_spec (caseNum s) 2); [left | right]; repeat split; auto; lra.
Qed.

(** ** Loops that leave the buffer alone *)

Section EngineFacts.

Variable random : nat -> R.

Lemma visit_skip c lam xMin xMax hw p i a k :
  p <= random k -> visit random c lam xMin xMax hw p i a k = (a, S k).
Proof.
  intros Hp. unfold visit, Math_random, bind, ret.
  rewrite Rgeb_true by lra. reflexivity.
Qed.

Lemma inner_skip c lam xMin xMax hw p idxs a k :
  (forall j, p <= random j) ->
  forM (visit random c lam xMin xMax hw p) idxs a k = (a, (k + length idxs)%nat).
Proof.
  intros Hp. revert k. induction idxs as [|i rest IH]; intros k; simpl.
  - unfold ret. f_equal. lia.
  - rewrite bind_run, visit_skip by apply Hp. simpl.
    rewrite IH. f_equal. lia.
Qed.

Lemma outer_skip c lam xMin xMax hw p n subs a k :
  (forall j, p <= random j) ->
  forM (fun _ a => forM (visit random c lam xMin xMax hw p) (seq 0 n) a) subs a k
  = (a, (k + length subs * n)%nat).
Proof.
  intros Hp. revert k. induction subs as [|i rest IH]; intros k; simpl.
  - unfold ret. f_equal. lia.
  - rewrite bind_run, inner_skip by apply Hp. simpl.
    rewrite IH, length_seq. f_equal. lia.
Qed.

(** A running step in which no draw falls below the jump probability. *)
Lemma step_no_jump dt s k :
  running s = true ->
  (forall j, jumpProbability dt s <= random j) ->
  fst (step random dt s k) = set_time (time s + dt * speed s) s.
Proof.
  intros Hrun Hp. unfold step. rewrite Hrun. change (negb true) with false.
  cbv beta iota zeta.
  rewrite bind_run, outer_skip by apply Hp. simpl.
  destruct s; reflexivity.
Qed.

Lemma step_paused dt s k : running s = false -> step random dt s k = (s, k).
Proof. intros Hrun. unfold step. rewrite Hrun. reflexivity. Qed.

(** The clock after a running step, whatever the particles do. *)
Lemma step_time dt s k :
  running s = true -> time (fst (step random dt s k)) = time s + dt * speed s.
Proof.
  intros Hrun. unfold step. rewrite Hrun. change (negb true) with false.
  cbv beta iota zeta. rewrite bind_run. reflexivity.
Qed.

(** [reset] and the fields it does not write. *)
Lemma reset_run s k :
  reset random s k =
  (set_atoms (fst (forM (seedAtom random) (seq 0 (numAtoms s)) (atoms s) k))
             (set_time 0 s),
   snd (forM (seedAtom random) (seq 0 (numAtoms s)) (atoms s) k)).
Proof. unfold reset. rewrite bind_run. reflexivity. Qed.

Lemma reset_time s k : time (fst (reset random s k)) = 0.
Proof. rewrite reset_run. reflexivity. Qed.

Lemma reset_caseNum s k : caseNum (fst (reset random s k)) = caseNum s.
Proof. rewrite reset_run. reflexivity. Qed.

Lemma reset_gamma s k : gamma (fst (reset random s k)) = gamma s.
Proof. rewrite reset_run. reflexivity. Qed.

Lemma reset_lambda s k : lambda (fst (reset random s k)) = lambda s.
Proof. rewrite reset_run. reflexivity. Qed.

Lemma reset_speed s k : speed (fst (reset random s k)) = speed s.
Proof. rewrite reset_run. reflexivity. Qed.

Lemma reset_running s k : running (fst (reset random s k)) = running s.
Proof. rewrite reset_run. reflexivity. Qed.

Lemma reset_numAtoms s k : numAtoms (fst (reset random s k)) = numAtoms s.
Proof. rewrite reset_run. reflexivity. Qed.

End EngineFacts.

(** ** The engine built by the constructor *)

Lemma coin_uniform01 : uniform01 coin.
Proof. intros k. unfold coin. lra. Qed.

Lemma sim0_caseNum : caseNum sim0 = 1%Z.
Proof. unfold sim0, new_DiffusionSim. rewrite reset_caseNum. reflexivity. Qed.

Lemma sim0_gamma : gamma sim0 = 20.
Proof. unfold sim0, new_DiffusionSim. rewrite reset_gamma. reflexivity. Qed.

Lemma sim0_lambda : lambda sim0 = 0.5.
Proof. unfold sim0, new_DiffusionSim. rewrite reset_lambda. simpl. lra. Qed.

Lemma sim0_speed : speed sim0 = 1.
Proof. unfold sim0, new_DiffusionSim. rewrite reset_speed. simpl. lra. Qed.

Lemma sim0_time : time sim0 = 0.
Proof. unfold sim0, new_DiffusionSim. apply reset_time. Qed.

Lemma sim0_running : running sim0 = false.
Proof. unfold sim0, new_DiffusionSim. rewrite reset_running. reflexivity. Qed.

Lemma sim0_numAtoms : numAtoms sim0 = 2000%nat.
Proof. unfold sim0, new_DiffusionSim. rewrite reset_numAtoms. reflexivity. Qed.

(** ** The paused engine *)

(** C10. While the [running] flag is false, [step(dt)] returns at once: the
    whole engine state is the one before the call, for every [dt], speed and
    parameters, and no random number is drawn. *)
Theorem step_when_paused_changes_nothing random dt s k :
  running s = false ->
  fst (step random dt s k) = s /\ snd (step random dt s k) = k.
Proof. intros Hrun. rewrite step_paused by exact Hrun. split; reflexivity. Qed.

Lemma step_when_paused_changes_nothing_witness :
  running sim0 = false /\
  fst (step coin 0.05 sim0 4000%nat) = sim0 /\ snd (step coin 0.05 sim0 4000%nat) = 4000%nat.
Proof.
  split; [exact sim0_running |].
  apply (step_when_paused_changes_nothing coin 0.05 sim0 4000%nat).
  exact sim0_running.
Defined.

(** ** Steps in which no particle jumps *)

(** C9. With a jump frequency of zero the jump probability of every
    sub-step is 0, no draw of [Math.random()] is below it, and [step(dt)]
    leaves every particle position as it was, for any [dt] and any sequence
    of draws. *)
Theorem zero_frequency_moves_no_particle random dt s k :
  uniform01 random ->
  gamma s = 0 ->
  jumpProbability dt s = 0 /\
  atoms (fst (step random dt s k)) = atoms s.
Proof.
  intros Hu Hg.
  assert (Hp : jumpProbability dt s = 0)
    by (unfold jumpProbability; rewrite Hg; apply Rmult_0_l).
  split; [exact Hp |].
  destruct (running s) eqn:Hrun.
  - rewrite step_no_jump; [reflexivity | exact Hrun |].
    intros j. rewrite Hp. apply Hu.
  - rewrite step_paused by exact Hrun. reflexivity.
Qed.

Lemma zero_frequency_moves_no_particle_witness :
  atoms (fst (step coin 0.05 (set_gamma 0 (set_running true sim0)) 4000%nat))
  = atoms (set_gamma 0 (set_running true sim0)).
Proof.
  apply (zero_frequency_moves_no_particle coin 0.05
           (set_gamma 0 (set_running true sim0)) 4000%nat).
  - exact coin_uniform01.
  - reflexivity.
Defined.

Lemma jump_probability_nonpositive g simDt (m : Z) :
  0 <= g -> simDt <= 0 -> g * (simDt / IZR (Z.max 1 m)) <= 0.
Proof.
  intros Hg Hd.
  assert (Hm : 1 <= IZR (Z.max 1 m)) by (apply IZR_le; lia).
  assert (Hi : 0 < / IZR (Z.max 1 m)) by (apply Rinv_0_lt_compat; lra).
  unfold Rdiv. set (q := / IZR (Z.max 1 m)) in *.
  assert (Hq : simDt * q <= 0) by nra.
  nra.
Qed.

(** C1, as the code has it. For a state with [gamma >= 0] and [speed >= 0]
    and every [dt <= 0], [step(dt)] leaves every particle position
    unchanged. The clock is unchanged when the engine is paused or [dt = 0]
    (the whole state is then unchanged); a running engine adds [dt * speed]
    to it, so a negative [dt] moves the clock back. *)
Theorem nonpositive_dt_moves_no_particle random dt s k :
  uniform01 random ->
  0 <= gamma s -> 0 <= speed s -> dt <= 0 ->
  atoms (fst (step random dt s k)) = atoms s /\
  time (fst (step random dt s k))
    = (if running s then time s + dt * speed s else time s) /\
  (dt = 0 -> fst (step random dt s k) = s).
Proof.
  intros Hu Hg Hv Hdt. destruct (running s) eqn:Hrun.
  - rewrite step_no_jump; [| exact Hrun |].
    + repeat split. intros ->. destruct s; unfold set_time; simpl.
      f_equal. ring.
    + intros j. apply Rle_trans with 0; [| apply Hu].
      unfold jumpProbability, subSteps.
      apply jump_probability_nonpositive; [exact Hg |].
      assert (0 <= (- dt) * speed s) by (apply Rmult_le_pos; lra). lra.
  - rewrite step_paused by exact Hrun. repeat split.
Qed.

Lemma nonpositive_dt_moves_no_particle_witness :
  atoms (fst (step coin (-1) (set_running true sim0) 4000%nat))
    = atoms (set_running true sim0) /\
  time (fst (step coin (-1) (set_running true sim0) 4000%nat)) = -1.
Proof.
  generalize sim0_gamma, sim0_speed, sim0_time. generalize sim0 as s.
  intros s Hg Hs Ht.
  destruct (nonpositive_dt_moves_no_particle coin (-1) (set_running true s) 4000%nat)
    as (Ha & Hc & _).
  - exact coin_uniform01.
  - simpl. lra.
  - simpl. lra.
  - lra.
  - split; [exact Ha |]. rewrite Hc. simpl. lra.
Defined.

(** C1 as stated fails on the clock: the engine built by the constructor,
    set running, is stepped by [dt = -1] and its elapsed time goes from 0
    to -1. *)
Lemma negative_dt_moves_the_clock_back :
  -1 <= 0 /\
  time (set_running true sim0) = 0 /\
  time (fst (step coin (-1) (set_running true sim0) 4000%nat)) = -1 /\
  time (fst (step coin (-1) (set_running true sim0) 4000%nat))
    <> time (set_running true sim0).
Proof.
  generalize sim0_speed, sim0_time. generalize sim0 as s. intros s Hs Ht.
  rewrite step_time by reflexivity. simpl.
  repeat split; lra.
Qed.

(** ** The diffusion coefficient *)

(** C8. The getter [D] is [gamma * lambda^2 / 6] of the parameters the
    engine holds when it is read: it is a function of the state, not a
    field, so assigning [gamma] and [lambda] changes its value at once, for
    all values of the two parameters and so for all positive ones. *)
Theorem D_is_gamma_lambda_squared_over_6 s g l :
  D s = gamma s * lambda s ^ 2 / 6 /\
  D (set_gamma g (set_lambda l s)) = g * l ^ 2 / 6.
Proof. unfold D. simpl. split; field. Qed.

(** ** The analytical solution before any spreading *)

(** C2, as the code has it. While [D * t < 1e-9]: in case 1 [analyticalAt(x)]
    is 1 for [x < 0.01] and 0 for [x >= 0.01] (the comparison is on [x], not
    on its absolute value; the two agree for [x > -0.01]); in cases 2 and 3
    it is 0 for every [x]. *)
Theorem analyticalAt_before_spreading x s :
  D s * time s < 1e-9 ->
  (caseNum s = 1%Z ->
     (x < 0.01 -> analyticalAt x s = 1) /\
     (0.01 <= x -> analyticalAt x s = 0) /\
     (-0.01 < x -> analyticalAt x s = if Rltb (Rabs x) 0.01 then 1 else 0)) /\
  (caseNum s = 2%Z \/ caseNum s = 3%Z -> analyticalAt x s = 0).
Proof.
  intros HDt. split.
  - intros Hc. unfold analyticalAt. rewrite Hc. simpl Z.eqb. cbv iota.
    rewrite (Rltb_true _ _ HDt).
    repeat split; intros Hx.
    + rewrite Rltb_true by lra. reflexivity.
    + rewrite Rltb_false by lra. reflexivity.
    + unfold Rabs. destruct (Rcase_abs x); rcases.
  - intros Hc. unfold analyticalAt.
    destruct Hc as [Hc | Hc]; rewrite Hc; simpl Z.eqb; cbv iota;
      rewrite (Rltb_true _ _ HDt); reflexivity.
Qed.

Lemma analyticalAt_before_spreading_witness :
  analyticalAt (-1) sim0 = 1 /\ analyticalAt 3 sim0 = 0 /\
  analyticalAt 3 (set_caseNum 2 sim0) = 0.
Proof.
  generalize sim0_caseNum, sim0_time. generalize sim0 as s. intros s Hc Ht.
  assert (H0 : D s * time s < 1e-9) by (rewrite Ht; lra).
  destruct (analyticalAt_before_spreading (-1) s H0) as [H1 _].
  destruct (H1 Hc) as (Ha & _ & _).
  destruct (analyticalAt_before_spreading 3 s H0) as [H2 _].
  destruct (H2 Hc) as (_ & Hb & _).
  assert (H3 : D (set_caseNum 2 s) * time (set_caseNum 2 s) < 1e-9)
    by exact H0.
  destruct (analyticalAt_before_spreading 3 (set_caseNum 2 s) H3) as [_ H4].
  repeat split; [apply Ha; lra | apply Hb; lra | apply H4; left; reflexivity].
Defined.

(** C2 as stated fails left of the source: in the freshly built engine
    (case 1, [t = 0]) the point [x = -1] has [|x| >= 0.01], for which the
    claim gives 0, and [analyticalAt(-1)] is 1. *)
Lemma analyticalAt_left_of_source_is_one :
  caseNum sim0 = 1%Z /\ D sim0 * time sim0 < 1e-9 /\
  Rltb (Rabs (-1)) 0.01 = false /\
  analyticalAt (-1) sim0 = 1 /\
  analyticalAt (-1) sim0 <> (if Rltb (Rabs (-1)) 0.01 then 1 else 0).
Proof.
  assert (Ht : D sim0 * time sim0 < 1e-9) by (rewrite sim0_time; lra).
  assert (Habs : Rltb (Rabs (-1)) 0.01 = false).
  { apply Rltb_false. unfold Rabs. destruct (Rcase_abs (-1)); lra. }
  assert (Hv : analyticalAt (-1) sim0 = 1).
  { unfold analyticalAt. rewrite sim0_caseNum. simpl Z.eqb. cbv iota.
    rewrite (Rltb_true _ _ Ht). rewrite Rltb_true by lra. reflexivity. }
  split; [exact sim0_caseNum |]. split; [exact Ht |].
  split; [exact Habs |]. split; [exact Hv |].
  rewrite Hv, Habs. lra.
Qed.

(** ** What a jump does to one particle *)

Section Jump.

Variable random : nat -> R.
Variables (c : Z) (lam xMin xMax hw : R) (i : nat) (a : list R) (k : nat).

Lemma jump_draws : snd (jump random c lam xMin xMax hw i a k) = S (S k).
Proof. reflexivity. Qed.

Lemma jump_length :
  length (fst (jump random c lam xMin xMax hw i a k)) = length a.
Proof.
  unfold jump, bind, Math_random, ret. simpl.
  rewrite !length_alter. reflexivity.
Qed.

(** The new x is the x rule applied to the displaced x. *)
Lemma jump_x :
  fst (jump random c lam xMin xMax hw i a k) !! (i * 3)%nat
  = (fun x => boundaryX c xMin xMax (x + lam * sinT_at random k * cos (phi_at random k)))
      <$> a !! (i * 3)%nat.
Proof.
  unfold jump, bind, Math_random, ret. simpl.
  rewrite 2!(list_lookup_alter_ne _ _ (i * 3 + _)%nat) by lia.
  rewrite list_lookup_alter_eq.
  rewrite 2!(list_lookup_alter_ne _ _ (i * 3 + _)%nat) by lia.
  rewrite list_lookup_alter_eq.
  destruct (a !! (i * 3)%nat); reflexivity.
Qed.

(** The new y and z are the wrap applied to the displaced y and z. *)
Lemma jump_y :
  fst (jump random c lam xMin xMax hw i a k) !! (i * 3 + 1)%nat
  = (fun y => wrap hw (y + lam * sinT_at random k * sin (phi_at random k)))
      <$> a !! (i * 3 + 1)%nat.
Proof.
  unfold jump, bind, Math_random, ret. simpl.
  rewrite list_lookup_alter_ne by lia.
  rewrite list_lookup_alter_eq.
  rewrite list_lookup_alter_ne by lia.
  rewrite list_lookup_alter_ne by lia.
  rewrite list_lookup_alter_eq.
  rewrite list_lookup_alter_ne by lia.
  destruct (a !! (i * 3 + 1)%nat); reflexivity.
Qed.

Lemma jump_z :
  fst (jump random c lam xMin xMax hw i a k) !! (i * 3 + 2)%nat
  = (fun z => wrap hw (z + lam * cosT_at random k)) <$> a !! (i * 3 + 2)%nat.
Proof.
  unfold jump, bind, Math_random, ret. simpl.
  rewrite list_lookup_alter_eq.
  rewrite list_lookup_alter_ne by lia.
  rewrite list_lookup_alter_ne by lia.
  rewrite list_lookup_alter_eq.
  rewrite list_lookup_alter_ne by lia.
  rewrite list_lookup_alter_ne by lia.
  destruct (a !! (i * 3 + 2)%nat); reflexivity.
Qed.

(** Every other slot of the buffer is untouched. *)
Lemma jump_other j :
  j <> (i * 3)%nat -> j <> (i * 3 + 1)%nat -> j <> (i * 3 + 2)%nat ->
  fst (jump random c lam xMin xMax hw i a k) !! j = a !! j.
Proof.
  intros H0 H1 H2. unfold jump, bind, Math_random, ret. simpl.
  rewrite !list_lookup_alter_ne by lia. reflexivity.
Qed.

End Jump.

(** ** The periodic wrap of y and z *)

Lemma wrap_cases hw y :
  (y < - hw /\ wrap hw y = y + DOMAIN_WIDTH) \/
  (- hw <= y /\ hw < y /\ wrap hw y = y - DOMAIN_WIDTH) \/
  (- hw <= y <= hw /\ wrap hw y = y).
Proof.
  unfold wrap, Rltb, Rgtb.
  destruct (Rlt_dec y (- hw)); [left; split; [lra | reflexivity] |].
  destruct (Rgt_dec y hw); right; [left | right]; repeat split; lra.
Qed.

(** C6 as stated fails for a raw value more than one width outside the
    box: [7] is wrapped to [3], which is still outside [[-2, 2]]. Such a
    value is produced by a jump of length [lambda = 10]: a particle at the
    origin whose draw for [cosT] is 0.85 moves to [z = 7] and is stored at
    [z = 3]. *)
Lemma wrap_of_far_value_stays_outside :
  7 > DOMAIN_WIDTH / 2 /\
  wrap (DOMAIN_WIDTH / 2) 7 = 3 /\
  ~ (- (DOMAIN_WIDTH / 2) <= wrap (DOMAIN_WIDTH / 2) 7 <= DOMAIN_WIDTH / 2) /\
  fst (jump (fun _ => 0.85) 1 10 0 100 (DOMAIN_WIDTH / 2) 0 [0; 0; 0] 0%nat) !! 2%nat
    = Some 3.
Proof.
  assert (H7 : wrap (DOMAIN_WIDTH / 2) 7 = 3).
  { unfold wrap, DOMAIN_WIDTH. rcases. }
  split; [unfold DOMAIN_WIDTH; lra |]. split; [exact H7 |]. split.
  - rewrite H7. unfold DOMAIN_WIDTH. lra.
  - change 2%nat with (0 * 3 + 2)%nat. rewrite jump_z. simpl.
    f_equal. unfold cosT_at.
    replace (0 + 10 * (2 * 0.85 - 1)) with 7 by lra. exact H7.
Qed.

(** The drawn direction is a unit vector: [cosT] lies in [[-1, 1]] and
    [sinT] in [[0, 1]]. *)
Lemma direction_bounded random k :
  uniform01 random ->
  -1 <= cosT_at random k <= 1 /\ 0 <= sinT_at random k <= 1.
Proof.
  intros Hu. unfold sinT_at, cosT_at. destruct (Hu k) as [H0 H1].
  split; [lra |]. split; [apply sqrt_pos |].
  apply Rle_trans with (sqrt 1); [| rewrite sqrt_1; lra].
  apply sqrt_le_1_alt.
  pose proof (Rle_0_sqr (2 * random k - 1)) as Hsq. unfold Rsqr in Hsq. lra.
Qed.

(** The raw value stays within one width of the box when the particle was
    inside it and the jump is no longer than the box is wide: the jump then
    leaves y and z inside the box. *)
Lemma jump_keeps_lateral_in_box random c lam xMin xMax i a k y z :
  uniform01 random ->
  - DOMAIN_WIDTH <= lam <= DOMAIN_WIDTH ->
  a !! (i * 3 + 1)%nat = Some y -> - (DOMAIN_WIDTH / 2) <= y <= DOMAIN_WIDTH / 2 ->
  a !! (i * 3 + 2)%nat = Some z -> - (DOMAIN_WIDTH / 2) <= z <= DOMAIN_WIDTH / 2 ->
  exists y' z',
    fst (jump random c lam xMin xMax (DOMAIN_WIDTH / 2) i a k) !! (i * 3 + 1)%nat
      = Some y' /\
    fst (jump random c lam xMin xMax (DOMAIN_WIDTH / 2) i a k) !! (i * 3 + 2)%nat
      = Some z' /\
    - (DOMAIN_WIDTH / 2) <= y' <= DOMAIN_WIDTH / 2 /\
    - (DOMAIN_WIDTH / 2) <= z' <= DOMAIN_WIDTH / 2.
Proof.
  intros Hu Hlam Hy Hyb Hz Hzb.
  destruct (direction_bounded random k Hu) as [Hc Hs].
  pose proof (SIN_bound (phi_at random k)) as Hsin.
  rewrite jump_y, jump_z, Hy, Hz. simpl.
  eexists _, _. split; [reflexivity |]. split; [reflexivity |].
  set (q := sinT_at random k * sin (phi_at random k)).
  assert (Hq : -1 <= q <= 1) by (unfold q; nra).
  rewrite Rmult_assoc. fold q.
  set (cT := cosT_at random k) in *.
  unfold DOMAIN_WIDTH in *.
  assert (Hdy : -4 <= lam * q <= 4) by nra.
  assert (Hdz : -4 <= lam * cT <= 4) by nra.
  split.
  - destruct (wrap_cases (4 / 2) (y + lam * q))
      as [(H1 & ->) | [(H1 & H2 & ->) | (H1 & ->)]];
      unfold DOMAIN_WIDTH; lra.
  - destruct (wrap_cases (4 / 2) (z + lam * cT))
      as [(H1 & ->) | [(H1 & H2 & ->) | (H1 & ->)]];
      unfold DOMAIN_WIDTH; lra.
Qed.

(** ** The histogram *)

Lemma sum_list_alter_S (l : list nat) (i : nat) :
  (i < length l)%nat -> sum_list (alter S i l) = S (sum_list l).
Proof.
  revert i. induction l as [|x l IH]; intros i Hi; simpl in Hi; [lia |].
  destruct i as [|i]; [reflexivity |].
  change (alter S (S i) (x :: l)) with (x :: alter S i l).
  change (sum_list (x :: alter S i l)) with (x + sum_list (alter S i l))%nat.
  rewrite IH by lia. simpl. lia.
Qed.

Lemma incr_in_range (b : Z) (bins : list nat) :
  (0 <= b < Z.of_nat (length bins))%Z ->
  sum_list (incr b bins) = S (sum_list bins) /\
  length (incr b bins) = length bins.
Proof.
  intros Hb. unfold incr.
  destruct (Z.leb_spec 0 b); [| lia].
  rewrite sum_list_alter_S by lia. rewrite length_alter. split; reflexivity.
Qed.

Lemma bin_width s : (visibleMax s - visibleMin s) / INR NUM_BINS = 0.25.
Proof.
  unfold NUM_BINS. rewrite INR_IZR_INZ. change (Z.of_nat 40) with 40%Z.
  destruct (visible_bounds s) as [(_ & -> & ->) | (_ & -> & ->)]; lra.
Qed.

(** The bin of a particle inside the window is one of the [NUM_BINS]. *)
Lemma bin_index_in_range s x :
  visibleMin s <= x ->
  (0 <= Z.min (Zfloor ((x - visibleMin s)
                       / ((visibleMax s - visibleMin s) / INR NUM_BINS)))
              (Z.of_nat NUM_BINS - 1)
   < Z.of_nat NUM_BINS)%Z.
Proof.
  intros Hlo. rewrite bin_width.
  assert (H0 : (0 <= Zfloor ((x - visibleMin s) / 0.25))%Z).
  { apply Zfloor_lub. simpl. lra. }
  unfold NUM_BINS. lia.
Qed.

Lemma histogram_loop s idxs bins :
  length bins = NUM_BINS ->
  let body := fun (i : nat) (bins : list nat) =>
    match atoms s !! (i * 3)%nat with
    | Some x =>
        if Rltb x (visibleMin s) || Rgeb x (visibleMax s) then bins
        else incr (Z.min (Zfloor ((x - visibleMin s)
                                  / ((visibleMax s - visibleMin s) / INR NUM_BINS)))
                         (Z.of_nat NUM_BINS - 1)) bins
    | None => bins
    end in
  sum_list (for_each body idxs bins)
    = (sum_list bins + length (List.filter (inWindow s) idxs))%nat /\
  length (for_each body idxs bins) = NUM_BINS.
Proof.
  intros Hlen body. revert bins Hlen.
  induction idxs as [|i rest IH]; intros bins Hlen; simpl.
  - split; [lia | exact Hlen].
  - unfold inWindow at 1. unfold body at 2 4.
    destruct (atoms s !! (i * 3)%nat) as [x|]; [| apply IH; exact Hlen].
    pose proof (bin_index_in_range s x) as Hb.
    set (b := Z.min _ _) in *.
    unfold Rltb, Rgeb.
    destruct (Rlt_dec x (visibleMin s)), (Rge_dec x (visibleMax s)),
      (Rge_dec x (visibleMin s)), (Rlt_dec x (visibleMax s));
      simpl; try lra; try (apply IH; exact Hlen).
    destruct (incr_in_range b bins) as [Hsum Hl].
    { rewrite Hlen. apply Hb. lra. }
    destruct (IH _ (eq_trans Hl Hlen)) as [IH1 IH2].
    split; [| exact IH2]. rewrite IH1, Hsum. lia.
Qed.

Lemma filter_length_le {A : Type} (p : A -> bool) (l : list A) :
  (length (List.filter p l) <= length l)%nat.
Proof.
  induction l as [|x l IH]; simpl; [lia |].
  destruct (p x); simpl; lia.
Qed.

(** C7. The bin counts of [getHistogram()] add up to at most [numAtoms]:
    they add up to the number of active particles whose x lies in
    [[visibleMin, visibleMax)], each of which increments exactly one of the
    [NUM_BINS] bins, while a particle outside that window increments none. *)
Theorem histogram_sum_at_most_numAtoms s :
  (sum_list (getHistogram s) <= numAtoms s)%nat /\
  sum_list (getHistogram s)
    = length (List.filter (inWindow s) (seq 0 (numAtoms s))) /\
  length (getHistogram s) = NUM_BINS.
Proof.
  pose proof (histogram_loop s (seq 0 (numAtoms s)) (replicate NUM_BINS 0%nat)
                (length_replicate _ _)) as H.
  cbv zeta in H. destruct H as [Hsum Hlen].
  assert (H0 : sum_list (replicate NUM_BINS 0%nat) = 0%nat)
    by (unfold NUM_BINS; reflexivity).
  rewrite H0, Nat.add_0_l in Hsum.
  unfold getHistogram. cbv zeta.
  split; [| split; [exact Hsum | exact Hlen]].
  rewrite Hsum.
  etransitivity; [apply filter_length_le |]. rewrite length_seq. lia.
Qed.

(** ** Seeding particles: [reset], [setCase], [setNumAtoms] *)

Section Seeding.

Variable random : nat -> R.

Lemma seedAtom_run i a k :
  seedAtom random i a k =
  (<[(i * 3 + 2)%nat := (random (S k) - 0.5) * DOMAIN_WIDTH]>
     (<[(i * 3 + 1)%nat := (random k - 0.5) * DOMAIN_WIDTH]>
        (<[(i * 3)%nat := 0]> a)),
   S (S k)).
Proof. reflexivity. Qed.

Lemma seedAtom_length i a k :
  length (fst (seedAtom random i a k)) = length a.
Proof. rewrite seedAtom_run. simpl. rewrite !length_insert. reflexivity. Qed.

(** Seeding particle [i] writes its own three slots only. *)
Lemma seedAtom_other i a k j :
  (j < i * 3 \/ i * 3 + 2 < j)%nat ->
  fst (seedAtom random i a k) !! j = a !! j.
Proof.
  intros Hj. rewrite seedAtom_run. simpl.
  rewrite !list_lookup_insert_ne by lia. reflexivity.
Qed.

(** It puts the particle on the source plane [x = 0] ... *)
Lemma seedAtom_x i a k :
  (i * 3 < length a)%nat -> fst (seedAtom random i a k) !! (i * 3)%nat = Some 0.
Proof.
  intros Hi. rewrite seedAtom_run. simpl.
  rewrite !list_lookup_insert_ne by lia.
  apply list_lookup_insert_eq. exact Hi.
Qed.

(** ... and a later seeding of any particle leaves it there. *)
Lemma seedAtom_keeps_x i j a k :
  a !! (j * 3)%nat = Some 0 ->
  fst (seedAtom random i a k) !! (j * 3)%nat = Some 0.
Proof.
  intros Hj. destruct (Nat.eq_dec i j) as [-> | Hne].
  - apply seedAtom_x. apply lookup_lt_Some in Hj. exact Hj.
  - rewrite seedAtom_other by lia. exact Hj.
Qed.

Lemma seed_loop_length idxs a k :
  length (fst (forM (seedAtom random) idxs a k)) = length a.
Proof.
  revert a k. induction idxs as [|i rest IH]; intros a k; simpl; [reflexivity |].
  rewrite bind_run, IH. apply seedAtom_length.
Qed.

Lemma seed_loop_keeps_x idxs j a k :
  a !! (j * 3)%nat = Some 0 ->
  fst (forM (seedAtom random) idxs a k) !! (j * 3)%nat = Some 0.
Proof.
  revert a k. induction idxs as [|i rest IH]; intros a k Hj; simpl; [exact Hj |].
  rewrite bind_run. apply IH. apply seedAtom_keeps_x. exact Hj.
Qed.

(** After the loop every listed particle that has a slot is at [x = 0]. *)
Lemma seed_loop_x idxs j a k :
  In j idxs -> (j * 3 < length a)%nat ->
  fst (forM (seedAtom random) idxs a k) !! (j * 3)%nat = Some 0.
Proof.
  revert a k. induction idxs as [|i rest IH]; intros a k Hin Hj; simpl;
    [destruct Hin |].
  rewrite bind_run. destruct Hin as [-> | Hin].
  - apply seed_loop_keeps_x. apply seedAtom_x. exact Hj.
  - apply IH; [exact Hin |]. rewrite seedAtom_length. exact Hj.
Qed.

(** The loop leaves alone every slot below those of the listed particles. *)
Lemma seed_loop_below idxs j a k :
  Forall (fun i => (j < i * 3)%nat) idxs ->
  fst (forM (seedAtom random) idxs a k) !! j = a !! j.
Proof.
  revert a k. induction idxs as [|i rest IH]; intros a k Hall; simpl;
    [reflexivity |].
  inversion Hall as [|? ? Hi Hrest]; subst.
  rewrite bind_run, IH by exact Hrest.
  apply seedAtom_other. left. exact Hi.
Qed.

Lemma setCase_run n s k :
  fst (setCase random n s k) = Normal (fst (reset random (set_caseNum n s) k)).
Proof. unfold setCase. rewrite bind_run. reflexivity. Qed.

Lemma setNumAtoms_run n s k :
  fst (setNumAtoms random n s k) =
  Normal (if (numAtoms s <? n)%nat
          then set_atoms
                 (fst (forM (seedAtom random)
                            (seq (numAtoms s) (n - numAtoms s)) (atoms s) k))
                 (set_numAtoms n s)
          else set_numAtoms n s).
Proof.
  unfold setNumAtoms. destruct (numAtoms s <? n)%nat; [| reflexivity].
  rewrite bind_run. reflexivity.
Qed.

End Seeding.

(** C3, as the code has it. [setCase(n)] never fails, whatever [n] is: it
    stores [n] as the case number and resets the engine. The elapsed time
    becomes 0, every active particle is put back on the plane [x = 0], and
    the parameters, the running flag, the particle count and the size of
    the buffer stay as they were. *)
Theorem setCase_stores_any_case_and_resets random n s k :
  exists s',
    fst (setCase random n s k) = Normal s' /\
    caseNum s' = n /\ time s' = 0 /\
    gamma s' = gamma s /\ lambda s' = lambda s /\ speed s' = speed s /\
    running s' = running s /\ numAtoms s' = numAtoms s /\
    length (atoms s') = length (atoms s) /\
    (forall i, (i < numAtoms s)%nat -> (i * 3 < length (atoms s))%nat ->
               atoms s' !! (i * 3)%nat = Some 0).
Proof.
  exists (fst (reset random (set_caseNum n s) k)).
  split; [apply setCase_run |].
  rewrite reset_run. simpl.
  repeat split.
  - apply seed_loop_length.
  - intros i Hi Hlen. apply seed_loop_x; [| exact Hlen].
    apply in_seq. lia.
Qed.

(** C3 as stated fails: case number 4, outside {1, 2, 3}, is accepted. The
    call on the freshly built engine completes normally and leaves the
    engine with case number 4 instead of 1. *)
Lemma setCase_accepts_case_4 :
  (4 <> 1 /\ 4 <> 2 /\ 4 <> 3)%Z /\
  caseNum sim0 = 1%Z /\
  (exists s', fst (setCase coin 4 sim0 4000%nat) = Normal s' /\ caseNum s' = 4%Z) /\
  fst (setCase coin 4 sim0 4000%nat) <> Throw InvalidCase sim0.
Proof.
  split; [lia |]. split; [exact sim0_caseNum |].
  rewrite setCase_run. split; [| discriminate].
  eexists. split; [reflexivity |]. rewrite reset_caseNum. reflexivity.
Qed.

(** C4, as the code has it. [setNumAtoms(n)] never fails, whatever [n] is,
    also above [MAX_ATOMS]: the call completes normally, the case, the
    parameters, the clock and the running flag stay as they were, the buffer
    keeps its size, the particles that were active before the call keep
    their positions, and every newly activated particle that has a slot in
    the buffer is put on the plane [x = 0]. *)
Theorem setNumAtoms_never_fails random n s k :
  exists s',
    fst (setNumAtoms random n s k) = Normal s' /\
    caseNum s' = caseNum s /\ gamma s' = gamma s /\ lambda s' = lambda s /\
    time s' = time s /\ running s' = running s /\ speed s' = speed s /\
    length (atoms s') = length (atoms s) /\
    (forall j, (j < numAtoms s * 3)%nat -> atoms s' !! j = atoms s !! j) /\
    (forall i, (numAtoms s <= i < n)%nat -> (i * 3 < length (atoms s))%nat ->
               atoms s' !! (i * 3)%nat = Some 0).
Proof.
  eexists. split; [apply setNumAtoms_run |].
  destruct (Nat.ltb_spec (numAtoms s) n) as [Hlt | Hge]; simpl; repeat split.
  - apply seed_loop_length.
  - intros j Hj. apply seed_loop_below.
    apply Forall_forall. intros i Hi. apply elem_of_seq in Hi. lia.
  - intros i Hi Hlen. apply seed_loop_x; [| exact Hlen].
    apply in_seq. lia.
  - intros i Hi. lia.
Qed.

(** C4 as stated fails: a count of [MAX_ATOMS + 1 = 5001] is accepted. The
    call on the freshly built engine (2000 active particles) completes
    normally and leaves the engine with an active count of 5001. *)
Lemma setNumAtoms_accepts_count_above_capacity :
  (S MAX_ATOMS > MAX_ATOMS)%nat /\
  numAtoms sim0 = 2000%nat /\
  (exists s', fst (setNumAtoms coin (S MAX_ATOMS) sim0 4000%nat) = Normal s' /\
              numAtoms s' = S MAX_ATOMS) /\
  fst (setNumAtoms coin (S MAX_ATOMS) sim0 4000%nat) <> Throw CapacityExceeded sim0.
Proof.
  split; [lia |]. split; [exact sim0_numAtoms |].
  rewrite setNumAtoms_run. split; [| discriminate].
  eexists. split; [reflexivity |].
  destruct (numAtoms sim0 <? S MAX_ATOMS)%nat; reflexivity.
Qed.

(** ** The two setters on the engine built by the constructor *)

Lemma reset_length random s k :
  length (atoms (fst (reset random s k))) = length (atoms s).
Proof. rewrite reset_run. simpl. apply seed_loop_length. Qed.

Lemma sim0_buffer_length : length (atoms sim0) = (MAX_ATOMS * 3)%nat.
Proof.
  unfold sim0, new_DiffusionSim. rewrite reset_length.
  cbn [atoms]. apply length_replicate.
Qed.

Lemma setCase_stores_any_case_and_resets_witness :
  exists s',
    fst (setCase coin 4 sim0 4000%nat) = Normal s' /\
    caseNum s' = 4%Z /\ time s' = 0 /\ numAtoms s' = 2000%nat /\
    atoms s' !! 0%nat = Some 0.
Proof.
  destruct (setCase_stores_any_case_and_resets coin 4 sim0 4000%nat)
    as (s' & Hrun & Hc & Ht & _ & _ & _ & _ & Hn & _ & Hx).
  exists s'. split; [exact Hrun |]. split; [exact Hc |]. split; [exact Ht |].
  split; [rewrite Hn; exact sim0_numAtoms |].
  apply (Hx 0%nat).
  - rewrite sim0_numAtoms. lia.
  - rewrite sim0_buffer_length. unfold MAX_ATOMS. lia.
Defined.

Lemma setNumAtoms_never_fails_witness :
  exists s',
    fst (setNumAtoms coin (S MAX_ATOMS) sim0 4000%nat) = Normal s' /\
    time s' = 0 /\ atoms s' !! 0%nat = atoms sim0 !! 0%nat /\
    atoms s' !! (2000 * 3)%nat = Some 0.
Proof.
  destruct (setNumAtoms_never_fails coin (S MAX_ATOMS) sim0 4000%nat)
    as (s' & Hrun & _ & _ & _ & Ht & _ & _ & _ & Hkeep & Hnew).
  exists s'. split; [exact Hrun |]. split; [rewrite Ht; exact sim0_time |].
  split.
  - apply Hkeep. rewrite sim0_numAtoms. lia.
  - apply Hnew.
    + rewrite sim0_numAtoms. unfold MAX_ATOMS. lia.
    + rewrite sim0_buffer_length. unfold MAX_ATOMS. lia.
Defined.

(** ** Worked examples *)

(** A running step, unfolded down to its two loops. *)
Lemma step_running random dt s k :
  running s = true ->
  step random dt s k =
  (set_time (time s + dt * speed s)
     (set_atoms
        (fst (forM (fun _ a =>
                      forM (visit random (caseNum s) (lambda s) (domainMin s)
                                  (domainMax s) (DOMAIN_WIDTH / 2)
                                  (jumpProbability dt s))
                           (seq 0 (numAtoms s)) a)
                   (seq 0 (Z.to_nat (subSteps dt s))) (atoms s) k)) s),
   snd (forM (fun _ a =>
                forM (visit random (caseNum s) (lambda s) (domainMin s)
                            (domainMax s) (DOMAIN_WIDTH / 2)
                            (jumpProbability dt s))
                     (seq 0 (numAtoms s)) a)
             (seq 0 (Z.to_nat (subSteps dt s))) (atoms s) k)).
Proof.
  intros Hrun. unfold step. rewrite Hrun. change (negb true) with false.
  cbv beta iota zeta. rewrite bind_run. reflexivity.
Qed.

(** A draw below the jump probability makes the particle jump. *)
Lemma visit_jump random c lam xMin xMax hw p i a k :
  random k < p ->
  visit random c lam xMin xMax hw p i a k = jump random c lam xMin xMax hw i a (S k).
Proof.
  intros Hp. unfold visit, bind. unfold Math_random at 1.
  rewrite Rgeb_false by exact Hp. reflexivity.
Qed.

(** A jump in a buffer that holds one particle. *)
Lemma jump_single random c lam xMin xMax hw x y z k :
  jump random c lam xMin xMax hw 0 [x; y; z] k =
  ([boundaryX c xMin xMax (x + lam * sinT_at random k * cos (phi_at random k));
    wrap hw (y + lam * sinT_at random k * sin (phi_at random k));
    wrap hw (z + lam * cosT_at random k)],
   S (S k)).
Proof. reflexivity. Qed.

(** One step of 50 ms at [gamma = 20]: one sub-step with jump probability 1.
    The particle jumps by [lambda] along [-z], leaves the box through its
    lower face and re-enters through the upper one. *)
Example step_one_jump :
  step lowDraws 0.05 one_particle 0%nat
  = (mkSim 3 20 0.5 1 0.05 true 1 [0; 0; 1.7], 3%nat).
Proof.
  rewrite step_running by reflexivity.
  unfold jumpProbability, subSteps, one_particle.
  cbn [gamma speed lambda numAtoms caseNum atoms time].
  assert (Hc : Zceil (20 * (0.05 * 1)) = 1%Z) by (apply Zceil_eq; simpl; lra).
  rewrite Hc. change (Z.max 1 1) with 1%Z. change (Z.to_nat 1) with 1%nat.
  cbn [seq forM]. rewrite !bind_run. unfold ret. cbn [fst snd].
  rewrite visit_jump by (unfold lowDraws; lra).
  rewrite jump_single. cbn [fst snd]. unfold set_time, set_atoms.
  cbn [gamma speed lambda numAtoms caseNum atoms time running].
  assert (HcT : cosT_at lowDraws 1 = -1) by (unfold cosT_at, lowDraws; lra).
  assert (HsT : sinT_at lowDraws 1 = 0).
  { unfold sinT_at. rewrite HcT.
    replace (1 - -1 * -1) with 0 by lra. apply sqrt_0. }
  rewrite HcT, HsT.
  unfold domainMin, domainMax, DOMAIN_LENGTH, DOMAIN_WIDTH.
  cbn [caseNum Z.eqb Pos.eqb].
  f_equal. f_equal; [lra |].
  f_equal; [| f_equal; [| f_equal]].
  - rewrite Rmult_0_r, Rmult_0_l, Rplus_0_r. unfold boundaryX. simpl Z.eqb. cbv iota zeta.
    rcases.
  - rewrite Rmult_0_r, Rmult_0_l, Rplus_0_r. unfold wrap, DOMAIN_WIDTH. rcases.
  - unfold wrap, DOMAIN_WIDTH. rcases.
Qed.

(** The bin of [x] is the quarter-micrometre interval it falls in. *)
Lemma bin_of s x (b : Z) :
  IZR b * 0.25 <= x - visibleMin s < (IZR b + 1) * 0.25 ->
  Zfloor ((x - visibleMin s) / ((visibleMax s - visibleMin s) / INR NUM_BINS)) = b.
Proof. intros Hx. rewrite bin_width. apply Zfloor_eq. lra. Qed.

(** Of four particles at 0.1, 9.9, 10 and -1, the histogram counts the first
    two (bins 0 and 39) and [countInView] the first three. *)
Example histogram_of_four_particles :
  getHistogram four_particles
  = alter S 39%nat (alter S 0%nat (replicate NUM_BINS 0%nat)) /\
  countInView four_particles = 3%nat.
Proof.
  assert (Hlo : visibleMin four_particles = 0) by reflexivity.
  assert (Hhi : visibleMax four_particles = 10) by reflexivity.
  split.
  - unfold getHistogram. cbv zeta.
    change (numAtoms four_particles) with 4%nat. cbn [seq for_each].
    change (atoms four_particles !! (0 * 3)%nat) with (Some 0.1).
    change (atoms four_particles !! (1 * 3)%nat) with (Some 9.9).
    change (atoms four_particles !! (2 * 3)%nat) with (Some 10).
    change (atoms four_particles !! (3 * 3)%nat) with (Some (-1)).
    cbv iota beta.
    rewrite (bin_of four_particles 0.1 0) by (rewrite Hlo; simpl; lra).
    rewrite (bin_of four_particles 9.9 39) by (rewrite Hlo; simpl; lra).
    rewrite Hlo, Hhi.
    rewrite (Rltb_false 0.1 0), (Rgeb_false 0.1 10) by lra.
    rewrite (Rltb_false 9.9 0), (Rgeb_false 9.9 10) by lra.
    rewrite (Rltb_false 10 0), (Rgeb_true 10 10) by lra.
    rewrite (Rltb_true (-1) 0) by lra.
    reflexivity.
  - unfold countInView. cbv zeta.
    change (numAtoms four_particles) with 4%nat. cbn [seq for_each].
    change (atoms four_particles !! (0 * 3)%nat) with (Some 0.1).
    change (atoms four_particles !! (1 * 3)%nat) with (Some 9.9).
    change (atoms four_particles !! (2 * 3)%nat) with (Some 10).
    change (atoms four_particles !! (3 * 3)%nat) with (Some (-1)).
    cbv iota beta. rewrite Hlo, Hhi.
    rewrite (Rgeb_true 0.1 0), (Rleb_true 0.1 10) by lra.
    rewrite (Rgeb_true 9.9 0), (Rleb_true 9.9 10) by lra.
    rewrite (Rgeb_true 10 0), (Rleb_true 10 10) by lra.
    rewrite (Rgeb_false (-1) 0) by lra.
    reflexivity.
Qed.

(** * Further properties of the engine *)

(** ** The error-function approximation *)

(** The polynomial of line 5 on the range of [t]: positive, and largest at
    [t = 1], where it is one billionth short of 1. *)
Lemma erfc_poly_bounds t :
  0 < t <= 1 ->
  0 < t * (0.254829592 + t * (-0.284496736 + t * (1.421413741
         + t * (-1.453152027 + t * 1.061405429)))) <= 0.999999999.
Proof.
  intros [Ht0 Ht1].
  pose proof (Rle_0_sqr (t - 0.6846)) as Hs1. unfold Rsqr in Hs1.
  pose proof (Rle_0_sqr (t - 0.158)) as Hs2. unfold Rsqr in Hs2.
  assert (Htt : 0 <= t * t <= t) by nra.
  set (q4 := -1.453152027 + t * 1.061405429).
  assert (Hq4 : -1.46 <= q4 <= -0.39) by (unfold q4; lra).
  set (q3 := 1.421413741 + t * q4).
  assert (Hq3 : 0.9 <= q3 <= 1.43) by (unfold q3, q4; nra).
  set (q2 := -0.284496736 + t * q3).
  assert (Hq2 : -0.284496736 + 0.9 * t <= q2 <= 1.15) by (unfold q2; nra).
  set (q1 := 0.254829592 + t * q2).
  assert (Hq1 : 0.2 <= q1) by (unfold q1; nra).
  split; [nra |].
  assert (Hfac : t * q1 = 0.999999999
            - (1 - t) * (0.999999999 + t * (0.745170407 + t * (1.029667143
                 + t * (-0.391746598 + t * 1.061405429)))))
    by (unfold q1, q2, q3, q4; lra).
  rewrite Hfac.
  set (r3 := -0.391746598 + t * 1.061405429).
  assert (Hr3 : -0.4 <= r3 <= 0.67) by (unfold r3; lra).
  set (r2 := 1.029667143 + t * r3).
  assert (Hr2 : 0.6 <= r2) by (unfold r2; nra).
  set (r1 := 0.745170407 + t * r2).
  assert (Hr1 : 0 <= r1) by (unfold r1; nra).
  nra.
Qed.

Lemma erfc_t_range x : 0 < 1 / (1 + 0.3275911 * Rabs x) <= 1.
Proof.
  pose proof (Rabs_pos x) as Ha.
  assert (Hd : 1 <= 1 + 0.3275911 * Rabs x) by nra.
  split.
  - apply Rdiv_lt_0_compat; lra.
  - apply Rmult_le_reg_r with (1 + 0.3275911 * Rabs x); [lra |].
    unfold Rdiv. rewrite Rmult_assoc, Rinv_l by lra. lra.
Qed.

Lemma exp_nonpos_range y : y <= 0 -> 0 < exp y <= 1.
Proof.
  intros Hy. split; [apply exp_pos |].
  destruct (Req_dec y 0) as [-> | Hne]; [rewrite exp_0; lra |].
  left. rewrite <- exp_0. apply exp_increasing. lra.
Qed.

(** The value [r] of line 6 lies strictly between 0 and 1. *)
Lemma erfc_r_range x :
  0 < 1 / (1 + 0.3275911 * Rabs x)
      * (0.254829592 + 1 / (1 + 0.3275911 * Rabs x)
         * (-0.284496736 + 1 / (1 + 0.3275911 * Rabs x)
            * (1.421413741 + 1 / (1 + 0.3275911 * Rabs x)
               * (-1.453152027 + 1 / (1 + 0.3275911 * Rabs x) * 1.061405429))))
      * exp ((- Rabs x) * Rabs x) < 1.
Proof.
  pose proof (erfc_poly_bounds _ (erfc_t_range x)) as Hp.
  set (p := _ * (0.254829592 + _)) in *.
  assert (He : 0 < exp ((- Rabs x) * Rabs x) <= 1).
  { apply exp_nonpos_range. pose proof (Rabs_pos x). nra. }
  set (e := exp _) in *. nra.
Qed.

Lemma erfc_bounds x :
  (0 <= x -> 0 < erfc x < 1) /\ (x < 0 -> 1 < erfc x < 2).
Proof.
  pose proof (erfc_r_range x) as Hr.
  unfold erfc. cbv zeta. set (r := _ * _ * exp _) in *.
  split; intros Hx.
  - rewrite Rgeb_true by lra. exact Hr.
  - rewrite Rgeb_false by lra. lra.
Qed.

(** X1. [erfc(x)] lies in [[0, 1]] for [x >= 0] and in [[1, 2]] for
    [x < 0]. *)
Theorem erfc_range x :
  (0 <= x -> 0 <= erfc x <= 1) /\ (x < 0 -> 1 <= erfc x <= 2).
Proof.
  destruct (erfc_bounds x) as [Hpos Hneg].
  split; intros Hx; [specialize (Hpos Hx) | specialize (Hneg Hx)]; lra.
Qed.

Lemma erfc_range_witness : 0 <= erfc 1 <= 1 /\ 1 <= erfc (-1) <= 2.
Proof.
  split; [apply (erfc_range 1); lra | apply (erfc_range (-1)); lra].
Defined.

(** X2. [erfc(-x) = 2 - erfc(x)] for every [x] other than 0. At 0 the
    polynomial gives 0.999999999, so the identity misses there by 2e-9. *)
Theorem erfc_reflection x :
  (x <> 0 -> erfc (- x) = 2 - erfc x) /\ erfc 0 = 0.999999999.
Proof.
  split.
  - intros Hx. unfold erfc. cbv zeta. rewrite Rabs_Ropp.
    set (r := _ * _ * exp _).
    destruct (Rlt_dec x 0).
    + rewrite (Rgeb_true (- x)), (Rgeb_false x) by lra. lra.
    + rewrite (Rgeb_false (- x)), (Rgeb_true x) by lra. reflexivity.
  - unfold erfc. cbv zeta. rewrite Rabs_R0, Rgeb_true by lra.
    replace (- 0 * 0) with 0 by lra. rewrite exp_0. lra.
Qed.

(** ** The analytical solution *)

Lemma sqrt_pos_of_spread Dt : ~ Dt < 1e-9 -> 0 < sqrt Dt /\ 0 < sqrt (PI * Dt).
Proof.
  intros H. pose proof PI_RGT_0 as Hpi.
  split; apply sqrt_lt_R0; [lra |].
  apply Rmult_lt_0_compat; lra.
Qed.

Lemma analyticalAt_bounds x s :
  0 <= analyticalAt x s /\
  (caseNum s = 1%Z -> 0 <= x -> analyticalAt x s <= 1) /\
  (caseNum s = 1%Z -> analyticalAt x s < 2).
Proof.
  unfold analyticalAt, Rltb. cbv zeta.
  destruct (Z.eqb_spec (caseNum s) 1) as [Hc | Hc];
    destruct (Rlt_dec (D s * time s) 1e-9) as [Hs | Hs].
  - destruct (Rlt_dec x 0.01); repeat split; intros; lra.
  - destruct (sqrt_pos_of_spread _ Hs) as [Hq _].
    destruct (erfc_bounds (x / (2 * sqrt (D s * time s)))) as [Hpos Hneg].
    destruct (Rle_dec 0 (x / (2 * sqrt (D s * time s)))) as [Ha | Ha].
    + specialize (Hpos Ha). repeat split; intros; lra.
    + assert (Hlt : x / (2 * sqrt (D s * time s)) < 0) by lra.
      specialize (Hneg Hlt). repeat split; intros; try lra.
      exfalso. apply Ha. apply Rmult_le_pos; [assumption |].
      left. apply Rinv_0_lt_compat. lra.
  - repeat split; intros; try congruence. lra.
  - split; [| split; intros; congruence].
    destruct (sqrt_pos_of_spread _ Hs) as [_ Hq].
    pose proof (exp_pos (- (x * x) / (4 * (D s * time s)))) as He.
    apply Rmult_le_pos; [| lra].
    destruct (caseNum s =? 2)%Z; left; apply Rdiv_lt_0_compat; lra.
Qed.

(** X3. [analyticalAt(x)] is never negative. In case 1 it is at most 2
    everywhere and at most 1 for [x >= 0], the side of the source the
    particles live on. *)
Theorem analyticalAt_range x s :
  0 <= analyticalAt x s /\
  (caseNum s = 1%Z -> 0 <= x -> analyticalAt x s <= 1) /\
  (caseNum s = 1%Z -> analyticalAt x s <= 2).
Proof.
  destruct (analyticalAt_bounds x s) as (H0 & H1 & H2).
  split; [exact H0 |]. split; [exact H1 |].
  intros Hc. specialize (H2 Hc). lra.
Qed.

(** X4. Outside case 1 the analytical density is even in [x], and for the
    same parameters and time the thin-film density (any case number other
    than 1 and 2) is twice the planar one. *)
Theorem analyticalAt_density_shape x c s :
  c <> 1%Z -> c <> 2%Z ->
  analyticalAt (- x) (set_caseNum 2 s) = analyticalAt x (set_caseNum 2 s) /\
  analyticalAt (- x) (set_caseNum c s) = analyticalAt x (set_caseNum c s) /\
  analyticalAt x (set_caseNum c s) = 2 * analyticalAt x (set_caseNum 2 s).
Proof.
  intros H1 H2. unfold analyticalAt, D. cbn [caseNum gamma lambda time set_caseNum].
  cbv zeta.
  destruct (Z.eqb_spec c 1) as [|_]; [contradiction |].
  destruct (Z.eqb_spec c 2) as [|_]; [contradiction |].
  change (2 =? 1)%Z with false. change (2 =? 2)%Z with true. cbv iota.
  replace (- x * - x) with (x * x) by ring.
  repeat split.
  unfold Rltb. destruct (Rlt_dec _ 1e-9) as [Hs | Hs]; [lra |].
  destruct (sqrt_pos_of_spread _ Hs) as [_ Hq]. field. lra.
Qed.

Lemma analyticalAt_density_shape_witness :
  analyticalAt (-1) (set_caseNum 3 one_particle)
    = analyticalAt 1 (set_caseNum 3 one_particle) /\
  analyticalAt 1 (set_caseNum 3 one_particle)
    = 2 * analyticalAt 1 (set_caseNum 2 one_particle).
Proof.
  destruct (analyticalAt_density_shape 1 3 one_particle) as (_ & H3 & H2);
    [lia | lia |].
  split; [exact H3 | exact H2].
Defined.

(** ** What a step keeps *)

Lemma forM_invariant {A : Type} (P : A -> Prop) (body : nat -> A -> Rand A)
      (idxs : list nat) :
  (forall i a k, In i idxs -> P a -> P (fst (body i a k))) ->
  forall a k, P a -> P (fst (forM body idxs a k)).
Proof.
  induction idxs as [|i rest IH]; intros Hbody a k Ha; simpl; [exact Ha |].
  rewrite bind_run. apply IH.
  - intros j b m Hj. apply Hbody. right. exact Hj.
  - apply Hbody; [left; reflexivity | exact Ha].
Qed.

Lemma visit_cases random c lam xMin xMax hw p i a k :
  visit random c lam xMin xMax hw p i a k = (a, S k) \/
  visit random c lam xMin xMax hw p i a k
    = jump random c lam xMin xMax hw i a (S k).
Proof.
  destruct (Rlt_dec (random k) p) as [Hlt | Hge].
  - right. apply visit_jump. exact Hlt.
  - left. apply visit_skip. lra.
Qed.

(** A property of the buffer that every jump of an active particle keeps is
    kept by the two loops of [step]. *)
Lemma step_loops_invariant random (P : list R -> Prop) c lam xMin xMax hw p n subs :
  (forall i a k, (i < n)%nat -> P a ->
                 P (fst (jump random c lam xMin xMax hw i a k))) ->
  forall a k, P a ->
  P (fst (forM (fun _ a => forM (visit random c lam xMin xMax hw p) (seq 0 n) a)
               subs a k)).
Proof.
  intros Hjump. apply forM_invariant. intros _ a k _.
  apply forM_invariant. intros i b m Hi Hb.
  apply in_seq in Hi.
  destruct (visit_cases random c lam xMin xMax hw p i b m) as [-> | ->];
    [exact Hb | apply Hjump; [lia | exact Hb]].
Qed.

(** [step] on a running engine, as a buffer transformation. *)
Lemma step_atoms_invariant random (P : list R -> Prop) dt s k :
  (forall i a m, (i < numAtoms s)%nat -> P a ->
     P (fst (jump random (caseNum s) (lambda s) (domainMin s) (domainMax s)
                  (DOMAIN_WIDTH / 2) i a m))) ->
  P (atoms s) -> P (atoms (fst (step random dt s k))).
Proof.
  intros Hjump Ha. destruct (running s) eqn:Hrun.
  - rewrite step_running by exact Hrun. cbn [fst atoms set_time set_atoms].
    apply step_loops_invariant; assumption.
  - rewrite step_paused by exact Hrun. exact Ha.
Qed.

Lemma step_fields random dt s k :
  caseNum (fst (step random dt s k)) = caseNum s /\
  gamma (fst (step random dt s k)) = gamma s /\
  lambda (fst (step random dt s k)) = lambda s /\
  numAtoms (fst (step random dt s k)) = numAtoms s /\
  running (fst (step random dt s k)) = running s /\
  speed (fst (step random dt s k)) = speed s.
Proof.
  destruct (running s) eqn:Hrun.
  - rewrite step_running by exact Hrun.
    cbn [fst caseNum gamma lambda numAtoms running speed set_time set_atoms].
    repeat split; exact Hrun.
  - rewrite step_paused by exact Hrun. cbn [fst]. repeat split; exact Hrun.
Qed.

(** X6. [step] changes nothing but particle positions and the clock: the
    case, the parameters, the particle count and the running flag stay,
    the buffer keeps its size, and no slot of an inactive particle (from
    [3 * numAtoms] on) is written. A running engine adds [dt * speed] to the
    clock, so with [dt >= 0] and [speed >= 0] time never runs backwards. *)
Theorem step_writes_active_particles_and_clock_only random dt s k :
  caseNum (fst (step random dt s k)) = caseNum s /\
  gamma (fst (step random dt s k)) = gamma s /\
  lambda (fst (step random dt s k)) = lambda s /\
  numAtoms (fst (step random dt s k)) = numAtoms s /\
  running (fst (step random dt s k)) = running s /\
  speed (fst (step random dt s k)) = speed s /\
  length (atoms (fst (step random dt s k))) = length (atoms s) /\
  (forall j, (numAtoms s * 3 <= j)%nat ->
             atoms (fst (step random dt s k)) !! j = atoms s !! j) /\
  time (fst (step random dt s k))
    = (if running s then time s + dt * speed s else time s) /\
  (0 <= dt -> 0 <= speed s -> time s <= time (fst (step random dt s k))).
Proof.
  destruct (step_fields random dt s k) as (H1 & H2 & H3 & H4 & H5 & H6).
  assert (Ht : time (fst (step random dt s k))
               = (if running s then time s + dt * speed s else time s)).
  { destruct (running s) eqn:Hrun;
      [apply step_time; exact Hrun | rewrite step_paused by exact Hrun; reflexivity]. }
  repeat (split; [assumption |]).
  split; [| split; [| split; [exact Ht |]]].
  - apply (step_atoms_invariant random (fun a => length a = length (atoms s)));
      [| reflexivity].
    intros i a m _ Ha. rewrite jump_length. exact Ha.
  - intros j Hj.
    apply (step_atoms_invariant random (fun a => a !! j = atoms s !! j));
      [| reflexivity].
    intros i a m Hi Ha. rewrite jump_other by lia. exact Ha.
  - intros Hdt Hv. rewrite Ht. destruct (running s); [| lra].
    assert (0 <= dt * speed s) by (apply Rmult_le_pos; assumption). lra.
Qed.

Lemma step_writes_active_particles_and_clock_only_witness :
  atoms (fst (step lowDraws 0.05 four_particles 0%nat)) !! 12%nat
    = atoms four_particles !! 12%nat /\
  time one_particle <= time (fst (step lowDraws 0.05 one_particle 0%nat)).
Proof.
  destruct (step_writes_active_particles_and_clock_only
              lowDraws 0.05 four_particles 0%nat)
    as (_ & _ & _ & _ & _ & _ & _ & Hkeep & _).
  destruct (step_writes_active_particles_and_clock_only
              lowDraws 0.05 one_particle 0%nat)
    as (_ & _ & _ & _ & _ & _ & _ & _ & _ & Hclock).
  split; [apply Hkeep; simpl; lia | apply Hclock; simpl; lra].
Defined.

(** ** Particles stay in the domain and in the box *)

(** The x rule lands in the domain of the active case, wherever the
    displaced particle is and whatever the case number. *)
Lemma boundaryX_in_domain s x :
  domainMin s <= boundaryX (caseNum s) (domainMin s) (domainMax s) x <= domainMax s.
Proof.
  destruct (domain_bounds s) as [(Hc & -> & ->) | (Hc & -> & ->)];
    unfold boundaryX.
  - rewrite Hc. change (2 =? 1)%Z with false. change (2 =? 2)%Z with true.
    cbv iota zeta. rcases.
  - destruct (caseNum s =? 1)%Z.
    + cbv zeta. rcases.
    + destruct (Z.eqb_spec (caseNum s) 2); [contradiction |].
      cbv zeta. rcases.
Qed.

Lemma step_inDomain random dt s k :
  inDomain s -> inDomain (fst (step random dt s k)).
Proof.
  intros Hdom.
  destruct (step_fields random dt s k) as (Hc & _ & _ & Hn & _ & _).
  unfold inDomain, domainMin, domainMax. rewrite Hc, Hn.
  fold (domainMin s). fold (domainMax s).
  apply (step_atoms_invariant random
           (fun a => forall i x, (i < numAtoms s)%nat -> a !! (i * 3)%nat = Some x ->
                                 domainMin s <= x <= domainMax s));
    [| exact Hdom].
  intros j a m Hj Ha i x Hi Hx.
  destruct (Nat.eq_dec i j) as [-> | Hne].
  - rewrite jump_x in Hx. destruct (a !! (j * 3)%nat) as [x0|]; [| discriminate].
    injection Hx as <-. apply boundaryX_in_domain.
  - rewrite jump_other in Hx by lia. apply (Ha i); assumption.
Qed.

(** X7. [step] keeps the particles in the domain: when every active
    particle has its x in [[domainMin, domainMax]] before the call, so it
    has after it, for every [dt], parameters and sequence of draws; a
    particle that jumps lands in the domain wherever it was. *)
Theorem step_keeps_particles_in_domain random dt s k :
  (inDomain s -> inDomain (fst (step random dt s k))) /\
  (forall i a m x,
     fst (jump random (caseNum s) (lambda s) (domainMin s) (domainMax s)
               (DOMAIN_WIDTH / 2) i a m) !! (i * 3)%nat = Some x ->
     domainMin s <= x <= domainMax s).
Proof.
  split; [apply step_inDomain |].
  intros i a m x Hx. rewrite jump_x in Hx.
  destruct (a !! (i * 3)%nat) as [x0|]; [| discriminate].
  injection Hx as <-. apply boundaryX_in_domain.
Qed.

Lemma one_particle_inDomain : inDomain one_particle.
Proof.
  intros i x Hi Hx. simpl in Hi. assert (i = 0%nat) as -> by lia.
  simpl in Hx. injection Hx as <-.
  unfold domainMin, domainMax, DOMAIN_LENGTH. simpl. lra.
Qed.

Lemma step_keeps_particles_in_domain_witness :
  inDomain (fst (step lowDraws 0.05 one_particle 0%nat)).
Proof.
  apply (proj1 (step_keeps_particles_in_domain lowDraws 0.05 one_particle 0%nat)).
  exact one_particle_inDomain.
Defined.

Lemma wrap_in_box c d :
  - (DOMAIN_WIDTH / 2) <= c <= DOMAIN_WIDTH / 2 ->
  - DOMAIN_WIDTH <= d <= DOMAIN_WIDTH ->
  - (DOMAIN_WIDTH / 2) <= wrap (DOMAIN_WIDTH / 2) (c + d) <= DOMAIN_WIDTH / 2.
Proof.
  intros Hc Hd.
  destruct (wrap_cases (DOMAIN_WIDTH / 2) (c + d))
    as [(H1 & ->) | [(H1 & H2 & ->) | (H1 & ->)]];
    unfold DOMAIN_WIDTH in *; lra.
Qed.

(** A jump moves y and z by at most the jump length. *)
Lemma displacement_bounded random lam k :
  uniform01 random ->
  - DOMAIN_WIDTH <= lam <= DOMAIN_WIDTH ->
  - DOMAIN_WIDTH <= lam * sinT_at random k * sin (phi_at random k) <= DOMAIN_WIDTH /\
  - DOMAIN_WIDTH <= lam * cosT_at random k <= DOMAIN_WIDTH.
Proof.
  intros Hu Hlam.
  destruct (direction_bounded random k Hu) as [Hc Hs].
  pose proof (SIN_bound (phi_at random k)) as Hsin.
  set (q := sinT_at random k * sin (phi_at random k)).
  assert (Hq : -1 <= q <= 1) by (unfold q; nra).
  rewrite Rmult_assoc. fold q.
  set (cT := cosT_at random k) in *.
  unfold DOMAIN_WIDTH in *. split; nra.
Qed.

Lemma step_inBox random dt s k :
  uniform01 random ->
  - DOMAIN_WIDTH <= lambda s <= DOMAIN_WIDTH ->
  inBox s -> inBox (fst (step random dt s k)).
Proof.
  intros Hu Hlam Hbox.
  destruct (step_fields random dt s k) as (_ & _ & _ & Hn & _ & _).
  unfold inBox. rewrite Hn.
  apply (step_atoms_invariant random
           (fun a => forall i c, (i < numAtoms s)%nat ->
                       a !! (i * 3 + 1)%nat = Some c \/ a !! (i * 3 + 2)%nat = Some c ->
                       - (DOMAIN_WIDTH / 2) <= c <= DOMAIN_WIDTH / 2));
    [| exact Hbox].
  intros j a m Hj Ha i c Hi Hc.
  destruct (displacement_bounded random (lambda s) m Hu Hlam) as [Hdy Hdz].
  destruct (Nat.eq_dec i j) as [-> | Hne].
  - rewrite jump_y, jump_z in Hc. destruct Hc as [Hc | Hc].
    + destruct (a !! (j * 3 + 1)%nat) as [y|] eqn:Hy; [| discriminate].
      injection Hc as <-. apply wrap_in_box; [| exact Hdy].
      apply (Ha j); [exact Hj | left; exact Hy].
    + destruct (a !! (j * 3 + 2)%nat) as [z|] eqn:Hz; [| discriminate].
      injection Hc as <-. apply wrap_in_box; [| exact Hdz].
      apply (Ha j); [exact Hj | right; exact Hz].
  - rewrite !jump_other in Hc by lia. apply (Ha i); assumption.
Qed.

(** X8. [step] keeps the particles in the box when the jump length is at
    most the box width: with y and z of every active particle in
    [[-W/2, W/2]] before the call, they are there after it. *)
Theorem step_keeps_particles_in_box random dt s k :
  uniform01 random ->
  - DOMAIN_WIDTH <= lambda s <= DOMAIN_WIDTH ->
  inBox s -> inBox (fst (step random dt s k)).
Proof. exact (step_inBox random dt s k). Qed.

Lemma one_particle_inBox : inBox one_particle.
Proof.
  intros i c Hi Hc. simpl in Hi. assert (i = 0%nat) as -> by lia.
  simpl in Hc. unfold DOMAIN_WIDTH.
  destruct Hc as [Hc | Hc]; injection Hc as <-; lra.
Qed.

Lemma lowDraws_uniform01 : uniform01 lowDraws.
Proof. intros k. unfold lowDraws. lra. Qed.

Lemma step_keeps_particles_in_box_witness :
  inBox (fst (step lowDraws 0.05 one_particle 0%nat)).
Proof.
  apply (step_keeps_particles_in_box lowDraws 0.05 one_particle 0%nat).
  - exact lowDraws_uniform01.
  - unfold DOMAIN_WIDTH. simpl. lra.
  - exact one_particle_inBox.
Defined.

(** ** Seeding: [reset] and the growth of [setNumAtoms] *)

Lemma seedAtom_Some random i a k m c :
  fst (seedAtom random i a k) !! m = Some c ->
  (m = (i * 3)%nat /\ c = 0) \/
  (m = (i * 3 + 1)%nat /\ c = (random k - 0.5) * DOMAIN_WIDTH) \/
  (m = (i * 3 + 2)%nat /\ c = (random (S k) - 0.5) * DOMAIN_WIDTH) \/
  ((m < i * 3 \/ i * 3 + 2 < m)%nat /\ a !! m = Some c).
Proof.
  rewrite seedAtom_run. cbn [fst]. intros H.
  apply list_lookup_insert_Some in H.
  destruct H as [(<- & <- & _) | (Hz & H)]; [right; right; left; split; reflexivity |].
  apply list_lookup_insert_Some in H.
  destruct H as [(<- & <- & _) | (Hy & H)]; [right; left; split; reflexivity |].
  apply list_lookup_insert_Some in H.
  destruct H as [(<- & <- & _) | (Hx & H)]; [left; split; reflexivity |].
  right; right; right. split; [lia | exact H].
Qed.

Lemma seed_value_in_box random k :
  uniform01 random ->
  - (DOMAIN_WIDTH / 2) <= (random k - 0.5) * DOMAIN_WIDTH <= DOMAIN_WIDTH / 2.
Proof. intros Hu. destruct (Hu k). unfold DOMAIN_WIDTH. lra. Qed.

Lemma seedAtom_keeps_seeded random i j a k :
  uniform01 random -> (i = j \/ seededAt a j) ->
  seededAt (fst (seedAtom random i a k)) j.
Proof.
  intros Hu Hj. split.
  - intros x Hx. apply seedAtom_Some in Hx.
    destruct Hx as [(_ & ->) | [(Hm & _) | [(Hm & _) | (Hm & Hx)]]];
      [reflexivity | lia | lia |].
    destruct Hj as [-> | [Hj _]]; [lia | apply Hj; exact Hx].
  - intros c [Hc | Hc]; apply seedAtom_Some in Hc;
      destruct Hc as [(Hm & _) | [(Hm & ->) | [(Hm & ->) | (Hm & Hc)]]];
      try lia; try (apply seed_value_in_box; exact Hu);
      (destruct Hj as [-> | [_ Hj]]; [lia | apply Hj; auto]).
Qed.

Lemma seed_loop_seeded random idxs j a k :
  uniform01 random -> (In j idxs \/ seededAt a j) ->
  seededAt (fst (forM (seedAtom random) idxs a k)) j.
Proof.
  intros Hu. revert a k.
  induction idxs as [|i rest IH]; intros a k Hj; simpl.
  - destruct Hj as [[] | Hj]. exact Hj.
  - rewrite bind_run. apply IH.
    destruct Hj as [[-> | Hin] | Hj].
    + right. apply seedAtom_keeps_seeded; [exact Hu | left; reflexivity].
    + left. exact Hin.
    + right. apply seedAtom_keeps_seeded; [exact Hu | right; exact Hj].
Qed.

Lemma seed_loop_draws random idxs a k :
  snd (forM (seedAtom random) idxs a k) = (k + 2 * length idxs)%nat.
Proof.
  revert a k. induction idxs as [|i rest IH]; intros a k; simpl; [lia |].
  rewrite bind_run, IH, seedAtom_run. simpl. lia.
Qed.

(** The loop leaves alone every slot above those of the listed particles. *)
Lemma seed_loop_above random idxs j a k :
  Forall (fun i => (i * 3 + 2 < j)%nat) idxs ->
  fst (forM (seedAtom random) idxs a k) !! j = a !! j.
Proof.
  revert a k. induction idxs as [|i rest IH]; intros a k Hall; simpl;
    [reflexivity |].
  inversion Hall as [|? ? Hi Hrest]; subst.
  rewrite bind_run, IH by exact Hrest.
  apply seedAtom_other. right. exact Hi.
Qed.

(** X9. [reset] zeroes the clock and reseeds exactly the active particles:
    each is put on the plane [x = 0] with y and z in [[-W/2, W/2]], the slots
    of inactive particles and every other field are left as they were, and
    two random numbers are drawn per active particle. *)
Theorem reset_reseeds_the_active_particles random s k :
  uniform01 random ->
  time (fst (reset random s k)) = 0 /\
  caseNum (fst (reset random s k)) = caseNum s /\
  gamma (fst (reset random s k)) = gamma s /\
  lambda (fst (reset random s k)) = lambda s /\
  speed (fst (reset random s k)) = speed s /\
  running (fst (reset random s k)) = running s /\
  numAtoms (fst (reset random s k)) = numAtoms s /\
  length (atoms (fst (reset random s k))) = length (atoms s) /\
  (forall i, (i < numAtoms s)%nat -> seededAt (atoms (fst (reset random s k))) i) /\
  (forall j, (numAtoms s * 3 <= j)%nat ->
             atoms (fst (reset random s k)) !! j = atoms s !! j) /\
  snd (reset random s k) = (k + 2 * numAtoms s)%nat.
Proof.
  intros Hu.
  split; [apply reset_time |]. split; [apply reset_caseNum |].
  split; [apply reset_gamma |]. split; [apply reset_lambda |].
  split; [apply reset_speed |]. split; [apply reset_running |].
  split; [apply reset_numAtoms |]. split; [apply reset_length |].
  rewrite reset_run. cbn [fst snd atoms set_atoms set_time numAtoms].
  split; [| split].
  - intros i Hi. apply seed_loop_seeded; [exact Hu |].
    left. apply in_seq. lia.
  - intros j Hj. apply seed_loop_above.
    apply Forall_forall. intros i Hi. apply elem_of_seq in Hi. lia.
  - rewrite seed_loop_draws, length_seq. reflexivity.
Qed.

Lemma reset_reseeds_the_active_particles_witness :
  time (fst (reset coin four_particles 0%nat)) = 0 /\
  seededAt (atoms (fst (reset coin four_particles 0%nat))) 3 /\
  snd (reset coin four_particles 0%nat) = 8%nat.
Proof.
  destruct (reset_reseeds_the_active_particles coin four_particles 0%nat
              coin_uniform01)
    as (Ht & _ & _ & _ & _ & _ & _ & _ & Hseed & _ & Hdraws).
  split; [exact Ht |]. split; [apply Hseed; simpl; lia | exact Hdraws].
Defined.

(** ** Counting the particles in view *)

Lemma count_loop (p : nat -> bool) (idxs : list nat) (c : nat) :
  for_each (fun i c => if p i then S c else c) idxs c
  = (c + length (List.filter p idxs))%nat.
Proof.
  revert c. induction idxs as [|i rest IH]; intros c; simpl; [lia |].
  rewrite IH. destruct (p i); simpl; lia.
Qed.

Lemma for_each_ext {A : Type} (f g : nat -> A -> A) (idxs : list nat) (a : A) :
  (forall i b, f i b = g i b) -> for_each f idxs a = for_each g idxs a.
Proof.
  intros Hfg. revert a. induction idxs as [|i rest IH]; intros a; simpl;
    [reflexivity |].
  rewrite Hfg. apply IH.
Qed.

Lemma countInView_filter s :
  countInView s = length (List.filter (inView s) (seq 0 (numAtoms s))).
Proof.
  unfold countInView. cbv zeta.
  rewrite <- (Nat.add_0_l (length _)), <- count_loop.
  apply for_each_ext. intros i c. unfold inView.
  destruct (atoms s !! (i * 3)%nat); reflexivity.
Qed.

Lemma filter_length_split {A : Type} (p q r : A -> bool) (l : list A) :
  (forall x, r x = p x || q x) -> (forall x, p x && q x = false) ->
  length (List.filter r l)
  = (length (List.filter p l) + length (List.filter q l))%nat.
Proof.
  intros Hr Hpq. induction l as [|x l IH]; simpl; [reflexivity |].
  rewrite Hr. specialize (Hpq x).
  destruct (p x), (q x); simpl in *; try discriminate; lia.
Qed.

Lemma visible_window_nonempty s : visibleMin s < visibleMax s.
Proof. destruct (visible_bounds s) as [(_ & -> & ->) | (_ & -> & ->)]; lra. Qed.

Lemma inView_split s i : inView s i = inWindow s i || atVisibleMax s i.
Proof.
  unfold inView, inWindow, atVisibleMax.
  pose proof (visible_window_nonempty s) as Hw.
  destruct (atoms s !! (i * 3)%nat) as [x|]; [| reflexivity].
  unfold Rgeb, Rleb, Rltb.
  destruct (Rge_dec x (visibleMin s)), (Rle_dec x (visibleMax s)),
    (Rlt_dec x (visibleMax s)), (Rge_dec x (visibleMax s));
    simpl; try reflexivity; lra.
Qed.

Lemma inWindow_not_atVisibleMax s i : inWindow s i && atVisibleMax s i = false.
Proof.
  unfold inWindow, atVisibleMax.
  destruct (atoms s !! (i * 3)%nat) as [x|]; [| reflexivity].
  unfold Rgeb, Rleb, Rltb.
  destruct (Rge_dec x (visibleMin s)), (Rle_dec x (visibleMax s)),
    (Rlt_dec x (visibleMax s)), (Rge_dec x (visibleMax s));
    simpl; try reflexivity; lra.
Qed.

(** The sum of the bins, as a count of particles. *)
Lemma histogram_sum_counts_window s :
  sum_list (getHistogram s)
  = length (List.filter (inWindow s) (seq 0 (numAtoms s))) /\
  length (getHistogram s) = NUM_BINS.
Proof.
  pose proof (histogram_loop s (seq 0 (numAtoms s)) (replicate NUM_BINS 0%nat)
                (length_replicate _ _)) as H.
  cbv zeta in H. destruct H as [Hsum Hlen].
  assert (H0 : sum_list (replicate NUM_BINS 0%nat) = 0%nat)
    by (unfold NUM_BINS; reflexivity).
  rewrite H0, Nat.add_0_l in Hsum. split; [exact Hsum | exact Hlen].
Qed.

(** X10. [countInView()] is at most [numAtoms] and at least the sum of the
    histogram: it exceeds that sum by the number of active particles
    exactly at [visibleMax], which its closed window counts and the
    half-open window of [getHistogram()] does not. *)
Theorem countInView_and_histogram s :
  (sum_list (getHistogram s) <= countInView s <= numAtoms s)%nat /\
  countInView s
  = (sum_list (getHistogram s)
     + length (List.filter (atVisibleMax s) (seq 0 (numAtoms s))))%nat.
Proof.
  pose proof (histogram_loop s (seq 0 (numAtoms s)) (replicate NUM_BINS 0%nat)
                (length_replicate _ _)) as H.
  cbv zeta in H. destruct H as [Hsum _].
  assert (H0 : sum_list (replicate NUM_BINS 0%nat) = 0%nat)
    by (unfold NUM_BINS; reflexivity).
  rewrite H0, Nat.add_0_l in Hsum.
  assert (Hhist : sum_list (getHistogram s)
                  = length (List.filter (inWindow s) (seq 0 (numAtoms s))))
    by exact Hsum.
  assert (Hsplit := filter_length_split (inWindow s) (atVisibleMax s) (inView s)
                      (seq 0 (numAtoms s)) (inView_split s)
                      (inWindow_not_atVisibleMax s)).
  rewrite countInView_filter, Hhist, Hsplit.
  split; [| reflexivity]. split; [lia |].
  rewrite <- Hsplit.
  etransitivity; [apply filter_length_le |]. rewrite length_seq. lia.
Qed.

(** ** What each bin of the histogram counts *)

(** The index computed on line 122 for a particle in the window: the
    [Math.min] never takes effect, and the index is the one of the
    quarter-micrometre interval the particle lies in. *)
Lemma bin_index_interval s x :
  visibleMin s <= x < visibleMax s ->
  exists b' : Z,
    Z.min (Zfloor ((x - visibleMin s)
                   / ((visibleMax s - visibleMin s) / INR NUM_BINS)))
          (Z.of_nat NUM_BINS - 1) = b' /\
    (0 <= b' < Z.of_nat NUM_BINS)%Z /\
    IZR b' * 0.25 <= x - visibleMin s < (IZR b' + 1) * 0.25.
Proof.
  intros [Hlo Hhi]. rewrite bin_width.
  pose proof (Zfloor_bound ((x - visibleMin s) / 0.25)) as [Hf1 Hf2].
  set (f := Zfloor ((x - visibleMin s) / 0.25)) in *.
  assert (Hw : visibleMax s - visibleMin s = 10)
    by (destruct (visible_bounds s) as [(_ & -> & ->) | (_ & -> & ->)]; lra).
  assert (Hf40 : (f < 40)%Z) by (apply lt_IZR; lra).
  assert (Hf0 : (0 <= f)%Z) by (apply Zfloor_lub; simpl; lra).
  exists f. unfold NUM_BINS.
  split; [lia |]. split; [lia | lra].
Qed.

Lemma incr_lookup (b' : Z) (b : nat) (bins : list nat) (c : nat) :
  (0 <= b')%Z -> bins !! b = Some c ->
  incr b' bins !! b = Some (if (Z.to_nat b' =? b)%nat then S c else c).
Proof.
  intros Hb Hc. unfold incr. destruct (Z.leb_spec 0 b'); [| lia].
  destruct (Nat.eqb_spec (Z.to_nat b') b) as [-> | Hne].
  - rewrite list_lookup_alter_eq, Hc. reflexivity.
  - rewrite list_lookup_alter_ne by exact Hne. exact Hc.
Qed.

Lemma inBin_of_index s x i (b : nat) (b' : Z) :
  atoms s !! (i * 3)%nat = Some x ->
  visibleMin s <= x < visibleMax s ->
  (0 <= b')%Z ->
  IZR b' * 0.25 <= x - visibleMin s < (IZR b' + 1) * 0.25 ->
  inBin s b i = (Z.to_nat b' =? b)%nat.
Proof.
  intros Hx Hwin Hb0 Hb. unfold inBin. cbv zeta. rewrite Hx, bin_width.
  rewrite INR_IZR_INZ.
  destruct (Nat.eqb_spec (Z.to_nat b') b) as [<- | Hne].
  - rewrite Z2Nat.id by exact Hb0.
    rewrite Rgeb_true, Rltb_true by lra. reflexivity.
  - unfold Rgeb, Rltb.
    destruct (Rge_dec x (visibleMin s + IZR (Z.of_nat b) * 0.25)) as [H1 | H1];
      [| reflexivity].
    destruct (Rlt_dec x (visibleMin s + (IZR (Z.of_nat b) + 1) * 0.25)) as [H2 | H2];
      [| reflexivity].
    exfalso. apply Hne.
    assert (Ha : (b' < Z.of_nat b + 1)%Z)
      by (apply lt_IZR; rewrite plus_IZR; lra).
    assert (Hc : (Z.of_nat b < b' + 1)%Z)
      by (apply lt_IZR; rewrite plus_IZR; lra).
    lia.
Qed.

Lemma inBin_outside_window s x i (b : nat) :
  (b < NUM_BINS)%nat ->
  atoms s !! (i * 3)%nat = Some x ->
  x < visibleMin s \/ x >= visibleMax s ->
  inBin s b i = false.
Proof.
  intros Hb Hx Hout. unfold inBin. cbv zeta. rewrite Hx, bin_width.
  assert (Hw : visibleMax s - visibleMin s = 10)
    by (destruct (visible_bounds s) as [(_ & -> & ->) | (_ & -> & ->)]; lra).
  assert (Hb0 : 0 <= INR b) by apply pos_INR.
  assert (Hb1 : INR b + 1 <= 40).
  { rewrite <- S_INR. replace 40 with (INR 40) by (rewrite INR_IZR_INZ; reflexivity).
    apply le_INR. unfold NUM_BINS in Hb. lia. }
  unfold Rgeb, Rltb.
  destruct (Rge_dec x (visibleMin s + INR b * 0.25)) as [H1 | H1]; [| reflexivity].
  destruct (Rlt_dec x (visibleMin s + (INR b + 1) * 0.25)) as [H2 | H2];
    [| reflexivity].
  exfalso. destruct Hout; lra.
Qed.

Lemma histogram_bin_loop s (b : nat) idxs bins c :
  (b < NUM_BINS)%nat -> length bins = NUM_BINS -> bins !! b = Some c ->
  let body := fun (i : nat) (bins : list nat) =>
    match atoms s !! (i * 3)%nat with
    | Some x =>
        if Rltb x (visibleMin s) || Rgeb x (visibleMax s) then bins
        else incr (Z.min (Zfloor ((x - visibleMin s)
                                  / ((visibleMax s - visibleMin s) / INR NUM_BINS)))
                         (Z.of_nat NUM_BINS - 1)) bins
    | None => bins
    end in
  for_each body idxs bins !! b
  = Some (c + length (List.filter (inBin s b) idxs))%nat.
Proof.
  intros Hb Hlen Hc body. revert bins c Hlen Hc.
  induction idxs as [|i rest IH]; intros bins c Hlen Hc; simpl.
  - rewrite Hc. f_equal. lia.
  - unfold body at 2.
    destruct (atoms s !! (i * 3)%nat) as [x|] eqn:Hx.
    + unfold Rltb, Rgeb.
      destruct (Rlt_dec x (visibleMin s)) as [Hlo | Hlo].
      { cbn [orb]. rewrite (inBin_outside_window s x i b Hb Hx) by (left; exact Hlo).
        apply IH; assumption. }
      destruct (Rge_dec x (visibleMax s)) as [Hhi | Hhi].
      { cbn [orb]. rewrite (inBin_outside_window s x i b Hb Hx) by (right; exact Hhi).
        apply IH; assumption. }
      cbn [orb].
      destruct (bin_index_interval s x) as (b' & -> & Hrange & Hint); [lra |].
      rewrite (inBin_of_index s x i b b' Hx) by (lra || lia).
      pose proof (incr_lookup b' b bins c (proj1 Hrange) Hc) as Hnew.
      destruct (incr_in_range b' bins) as [_ Hl]; [rewrite Hlen; exact Hrange |].
      rewrite (IH _ _ (eq_trans Hl Hlen) Hnew).
      destruct (Z.to_nat b' =? b)%nat; simpl; f_equal; lia.
    + unfold inBin. cbv zeta. rewrite Hx. apply IH; assumption.
Qed.

(** X11. Bin [b] of [getHistogram()] holds the number of active particles
    with [visibleMin + b*w <= x < visibleMin + (b+1)*w], where [w] is the
    bin width [(visibleMax - visibleMin) / NUM_BINS]; the result always has
    [NUM_BINS] bins. *)
Theorem histogram_bin_counts_its_interval s b :
  (b < NUM_BINS)%nat ->
  getHistogram s !! b
  = Some (length (List.filter (inBin s b) (seq 0 (numAtoms s)))).
Proof.
  intros Hb.
  pose proof (histogram_bin_loop s b (seq 0 (numAtoms s))
                (replicate NUM_BINS 0%nat) 0%nat Hb (length_replicate _ _)
                (lookup_replicate_2 _ _ _ Hb)) as H.
  cbv zeta in H. rewrite Nat.add_0_l in H. exact H.
Qed.

Lemma histogram_bin_counts_its_interval_witness :
  getHistogram four_particles !! 39%nat
  = Some (length (List.filter (inBin four_particles 39)
                              (seq 0 (numAtoms four_particles)))).
Proof.
  apply (histogram_bin_counts_its_interval four_particles 39).
  unfold NUM_BINS. lia.
Defined.

(** ** The histogram right after a reset *)

Lemma filter_length_all {A : Type} (p : A -> bool) (l : list A) :
  (forall x, In x l -> p x = true) -> length (List.filter p l) = length l.
Proof.
  induction l as [|x l IH]; intros Hall; simpl; [reflexivity |].
  rewrite (Hall x) by (left; reflexivity). simpl.
  rewrite IH; [reflexivity |]. intros y Hy. apply Hall. right. exact Hy.
Qed.

(** The bin that holds the source plane [x = 0]. *)
Lemma source_bin s :
  let b := if (caseNum s =? 2)%Z then 20%nat else 0%nat in
  (b < NUM_BINS)%nat /\
  visibleMin s + INR b * 0.25 <= 0 < visibleMin s + (INR b + 1) * 0.25.
Proof.
  unfold visibleMin, VISIBLE_LENGTH, NUM_BINS.
  destruct (caseNum s =? 2)%Z; cbv zeta.
  - rewrite INR_IZR_INZ. change (Z.of_nat 20) with 20%Z. split; [lia | lra].
  - change (INR 0) with 0. split; [lia | lra].
Qed.

(** X12. Right after [reset()] every active particle is in view: when each
    active particle has its slots in the buffer, [countInView()] and the
    sum of the histogram both equal [numAtoms], and the whole count sits in
    the bin of the source plane (bin 20 in case 2, bin 0 otherwise). *)
Theorem reset_puts_every_particle_in_view random s k :
  (numAtoms s * 3 <= length (atoms s))%nat ->
  countInView (fst (reset random s k)) = numAtoms s /\
  sum_list (getHistogram (fst (reset random s k))) = numAtoms s /\
  getHistogram (fst (reset random s k))
    !! (if (caseNum s =? 2)%Z then 20%nat else 0%nat)
  = Some (numAtoms s).
Proof.
  intros Hcap. set (s' := fst (reset random s k)).
  assert (Hn : numAtoms s' = numAtoms s) by apply reset_numAtoms.
  assert (Hc : caseNum s' = caseNum s) by apply reset_caseNum.
  assert (Hx : forall i, In i (seq 0 (numAtoms s')) ->
                         atoms s' !! (i * 3)%nat = Some 0).
  { intros i Hi. apply in_seq in Hi. unfold s'. rewrite reset_run.
    cbn [fst atoms set_atoms set_time numAtoms].
    apply seed_loop_x; [apply in_seq |]; lia. }
  destruct (source_bin s') as [Hb Hb0]. cbv zeta in Hb, Hb0. rewrite Hc in Hb, Hb0.
  assert (Hbin : getHistogram s' !! (if (caseNum s =? 2)%Z then 20%nat else 0%nat)
                 = Some (numAtoms s)).
  { pose proof (histogram_bin_loop s' _ (seq 0 (numAtoms s'))
                  (replicate NUM_BINS 0%nat) 0%nat Hb (length_replicate _ _)
                  (lookup_replicate_2 _ _ _ Hb)) as Hloop.
    cbv zeta in Hloop. rewrite Nat.add_0_l in Hloop.
    unfold getHistogram. cbv zeta. rewrite Hloop.
    rewrite filter_length_all, length_seq; [rewrite Hn; reflexivity |].
    intros i Hi. unfold inBin. cbv zeta. rewrite (Hx i Hi), bin_width.
    rewrite Rgeb_true, Rltb_true by lra. reflexivity. }
  assert (Hwin : length (List.filter (inWindow s') (seq 0 (numAtoms s')))
                 = numAtoms s).
  { rewrite filter_length_all, length_seq; [exact Hn |].
    intros i Hi. unfold inWindow. rewrite (Hx i Hi).
    destruct (visible_bounds s') as [(_ & -> & ->) | (_ & -> & ->)];
      rewrite Rgeb_true, Rltb_true by lra; reflexivity. }
  destruct (histogram_sum_counts_window s') as [Hsum _].
  assert (Hview : length (List.filter (inView s') (seq 0 (numAtoms s')))
                  = numAtoms s).
  { rewrite filter_length_all, length_seq; [exact Hn |].
    intros i Hi. unfold inView. rewrite (Hx i Hi).
    destruct (visible_bounds s') as [(_ & -> & ->) | (_ & -> & ->)];
      rewrite Rgeb_true, Rleb_true by lra; reflexivity. }
  rewrite countInView_filter, Hsum, Hwin, Hview.
  split; [reflexivity |]. split; [reflexivity | exact Hbin].
Qed.

Lemma reset_puts_every_particle_in_view_witness :
  countInView (fst (reset coin four_particles 0%nat)) = 4%nat /\
  getHistogram (fst (reset coin four_particles 0%nat)) !! 0%nat = Some 4%nat.
Proof.
  destruct (reset_puts_every_particle_in_view coin four_particles 0%nat)
    as (Hview & _ & Hbin); [simpl; lia |].
  split; [exact Hview | exact Hbin].
Defined.

(** ** Changing the particle count *)

(** The two branches of [setNumAtoms]. *)
Lemma setNumAtoms_effect random n s k :
  uniform01 random ->
  exists s',
    fst (setNumAtoms random n s k) = Normal s' /\
    numAtoms s' = n /\
    snd (setNumAtoms random n s k) = (k + 2 * (n - numAtoms s))%nat /\
    ((n <= numAtoms s)%nat -> s' = set_numAtoms n s) /\
    (forall j, (j < numAtoms s * 3)%nat -> atoms s' !! j = atoms s !! j) /\
    (forall i, (numAtoms s <= i < n)%nat -> seededAt (atoms s') i) /\
    caseNum s' = caseNum s /\ length (atoms s') = length (atoms s).
Proof.
  intros Hu. unfold setNumAtoms. cbv zeta.
  destruct (Nat.ltb_spec (numAtoms s) n) as [Hlt | Hge].
  - rewrite !bind_run. unfold ret. cbn [fst snd].
    eexists. split; [reflexivity |].
    cbn [numAtoms atoms caseNum set_atoms set_numAtoms].
    split; [reflexivity |]. split; [| split; [| split; [| split; [| split]]]].
    + rewrite seed_loop_draws, length_seq. reflexivity.
    + intros Hle. lia.
    + intros j Hj. apply seed_loop_below.
      apply Forall_forall. intros i Hi. apply elem_of_seq in Hi. lia.
    + intros i Hi. apply seed_loop_seeded; [exact Hu |].
      left. apply in_seq. lia.
    + reflexivity.
    + apply seed_loop_length.
  - unfold ret. cbn [fst snd]. eexists. split; [reflexivity |].
    cbn [numAtoms atoms caseNum set_numAtoms].
    split; [reflexivity |]. split; [lia |]. split; [reflexivity |].
    split; [reflexivity |]. split; [intros i Hi; lia |].
    split; reflexivity.
Qed.

(** X13. [setNumAtoms(n)] stores [n] as the particle count and completes
    normally. Shrinking or keeping the count touches nothing else and draws
    no random number. Growing leaves the particles active before the call
    where they are, seeds each newly activated particle on the plane
    [x = 0] with y and z in [[-W/2, W/2]], and draws two random numbers per
    new particle. *)
Theorem setNumAtoms_sets_count_and_seeds_new_particles random n s k :
  uniform01 random ->
  exists s',
    fst (setNumAtoms random n s k) = Normal s' /\
    numAtoms s' = n /\
    snd (setNumAtoms random n s k) = (k + 2 * (n - numAtoms s))%nat /\
    ((n <= numAtoms s)%nat -> s' = set_numAtoms n s) /\
    (forall j, (j < numAtoms s * 3)%nat -> atoms s' !! j = atoms s !! j) /\
    (forall i, (numAtoms s <= i < n)%nat -> seededAt (atoms s') i).
Proof.
  intros Hu.
  destruct (setNumAtoms_effect random n s k Hu)
    as (s' & H1 & H2 & H3 & H4 & H5 & H6 & _).
  exists s'. repeat (split; [assumption |]). assumption.
Qed.

Lemma setNumAtoms_sets_count_and_seeds_new_particles_witness :
  exists s',
    fst (setNumAtoms coin 4 (set_numAtoms 2 four_particles) 0%nat) = Normal s' /\
    numAtoms s' = 4%nat /\
    snd (setNumAtoms coin 4 (set_numAtoms 2 four_particles) 0%nat) = 4%nat /\
    atoms s' !! 0%nat = Some 0.1 /\
    seededAt (atoms s') 2 /\ seededAt (atoms s') 3.
Proof.
  destruct (setNumAtoms_sets_count_and_seeds_new_particles
              coin 4 (set_numAtoms 2 four_particles) 0%nat coin_uniform01)
    as (s' & Hrun & Hn & Hdraws & _ & Hkeep & Hseed).
  exists s'. split; [exact Hrun |]. split; [exact Hn |].
  split; [rewrite Hdraws; reflexivity |].
  split; [rewrite Hkeep by (simpl; lia); reflexivity |].
  split; apply Hseed; simpl; lia.
Defined.

(** X14. Deactivating particles and activating them again does not bring
    their positions back: after [setNumAtoms(m)] with [m] at most the
    count, followed by [setNumAtoms] with the old count, the count is the
    old one, the particles below [m] are where they were, and every
    particle from [m] on is back on the plane [x = 0]. *)
Theorem shrink_then_grow_reseeds random m s k s1 s2 :
  uniform01 random ->
  (m <= numAtoms s)%nat ->
  fst (setNumAtoms random m s k) = Normal s1 ->
  fst (setNumAtoms random (numAtoms s) s1 (snd (setNumAtoms random m s k)))
    = Normal s2 ->
  numAtoms s2 = numAtoms s /\
  (forall j, (j < m * 3)%nat -> atoms s2 !! j = atoms s !! j) /\
  (forall i, (m <= i < numAtoms s)%nat -> seededAt (atoms s2) i).
Proof.
  intros Hu Hm H1 H2.
  destruct (setNumAtoms_effect random m s k Hu)
    as (t1 & Ht1 & Hn1 & _ & Hshrink & _ & _ & _).
  rewrite H1 in Ht1. injection Ht1 as <-.
  specialize (Hshrink Hm). subst s1.
  destruct (setNumAtoms_effect
              random (numAtoms s) (set_numAtoms m s)
              (snd (setNumAtoms random m s k)) Hu)
    as (t2 & Ht2 & Hn2 & _ & _ & Hkeep & Hseed & _).
  rewrite H2 in Ht2. injection Ht2 as <-.
  cbn [numAtoms atoms set_numAtoms] in Hkeep, Hseed.
  split; [exact Hn2 |]. split; [exact Hkeep | exact Hseed].
Qed.

Lemma shrink_then_grow_reseeds_witness :
  exists s2,
    fst (setNumAtoms coin 4 (set_numAtoms 2 four_particles) 0%nat) = Normal s2 /\
    numAtoms s2 = 4%nat /\ seededAt (atoms s2) 3.
Proof.
  eexists. split; [apply setNumAtoms_run |].
  destruct (shrink_then_grow_reseeds coin 2 four_particles 0%nat
              (set_numAtoms 2 four_particles)
              (if (numAtoms (set_numAtoms 2 four_particles) <? 4)%nat
               then set_atoms
                      (fst (forM (seedAtom coin)
                                 (seq (numAtoms (set_numAtoms 2 four_particles))
                                      (4 - numAtoms (set_numAtoms 2 four_particles)))
                                 (atoms (set_numAtoms 2 four_particles)) 0%nat))
                      (set_numAtoms 4 (set_numAtoms 2 four_particles))
               else set_numAtoms 4 (set_numAtoms 2 four_particles))
              coin_uniform01) as (Hn & _ & Hseed).
  - simpl. lia.
  - reflexivity.
  - apply (setNumAtoms_run coin 4 (set_numAtoms 2 four_particles) 0%nat).
  - split; [exact Hn | apply Hseed; simpl; lia].
Defined.

(** ** Well-formed engines *)

Lemma domain_contains_source s : domainMin s <= 0 <= domainMax s.
Proof. destruct (domain_bounds s) as [(_ & -> & ->) | (_ & -> & ->)]; lra. Qed.

(** Seeded particles are in the domain of every case and in the box. *)
Lemma seeded_inDomain_inBox (s : DiffusionSim) :
  (forall i, (i < numAtoms s)%nat -> seededAt (atoms s) i) ->
  inDomain s /\ inBox s.
Proof.
  intros Hseed. split.
  - intros i x Hi Hx. destruct (Hseed i Hi) as [H0 _].
    rewrite (H0 x Hx). apply domain_contains_source.
  - intros i c Hi Hc. destruct (Hseed i Hi) as [_ Hb].
    specialize (Hb c Hc). lra.
Qed.

Lemma reset_wellFormed random s k :
  uniform01 random ->
  (numAtoms s <= MAX_ATOMS)%nat -> length (atoms s) = (MAX_ATOMS * 3)%nat ->
  wellFormed (fst (reset random s k)).
Proof.
  intros Hu Hn Hlen. unfold wellFormed.
  rewrite reset_numAtoms, reset_length.
  split; [exact Hn |]. split; [exact Hlen |].
  apply seeded_inDomain_inBox. rewrite reset_numAtoms.
  intros i Hi. rewrite reset_run. cbn [fst atoms set_atoms set_time numAtoms].
  apply seed_loop_seeded; [exact Hu |]. left. apply in_seq. lia.
Qed.

Lemma setNumAtoms_wellFormed random n s k s' :
  uniform01 random -> (n <= MAX_ATOMS)%nat ->
  wellFormed s -> fst (setNumAtoms random n s k) = Normal s' ->
  wellFormed s'.
Proof.
  intros Hu Hn (Hcap & Hlen & Hdom & Hbox) Hrun.
  destruct (setNumAtoms_effect random n s k Hu)
    as (t & Ht & Hcount & _ & _ & Hkeep & Hseed & Hcase & Hlen').
  rewrite Hrun in Ht. injection Ht as <-.
  unfold wellFormed. rewrite Hcount, Hlen'.
  split; [exact Hn |]. split; [exact Hlen |]. split.
  - intros i x Hi Hx. unfold domainMin, domainMax. rewrite Hcase.
    fold (domainMin s). fold (domainMax s). rewrite Hcount in Hi.
    destruct (Nat.lt_ge_cases i (numAtoms s)) as [Hold | Hnew].
    + rewrite Hkeep in Hx by lia. apply (Hdom i); assumption.
    + destruct (Hseed i (conj Hnew Hi)) as [H0 _].
      rewrite (H0 x Hx). apply domain_contains_source.
  - intros i c Hi Hc. rewrite Hcount in Hi.
    destruct (Nat.lt_ge_cases i (numAtoms s)) as [Hold | Hnew].
    + rewrite !Hkeep in Hc by lia. apply (Hbox i); assumption.
    + destruct (Hseed i (conj Hnew Hi)) as [_ Hb].
      specialize (Hb c Hc). lra.
Qed.

Lemma step_wellFormed random dt s k :
  uniform01 random -> - DOMAIN_WIDTH <= lambda s <= DOMAIN_WIDTH ->
  wellFormed s -> wellFormed (fst (step random dt s k)).
Proof.
  intros Hu Hlam (Hcap & Hlen & Hdom & Hbox).
  destruct (step_fields random dt s k) as (_ & _ & _ & Hn & _ & _).
  unfold wellFormed. rewrite Hn.
  split; [exact Hcap |]. split; [| split].
  - rewrite <- Hlen.
    apply (step_atoms_invariant random (fun a => length a = length (atoms s)));
      [| reflexivity].
    intros i a m _ Ha. rewrite jump_length. exact Ha.
  - apply step_inDomain. exact Hdom.
  - apply step_inBox; assumption.
Qed.

(** X15. A newly constructed engine, whatever the random source: case 1,
    [gamma = 20], [lambda = 0.5], speed 1, paused at time 0, with 2000
    active particles seeded on the source plane in a zero-filled buffer of
    [3 * MAX_ATOMS] slots, after 4000 draws; it is well formed. *)
Theorem constructor_builds_well_formed_engine random k :
  uniform01 random ->
  caseNum (fst (new_DiffusionSim random k)) = 1%Z /\
  gamma (fst (new_DiffusionSim random k)) = 20 /\
  lambda (fst (new_DiffusionSim random k)) = 0.5 /\
  speed (fst (new_DiffusionSim random k)) = 1 /\
  running (fst (new_DiffusionSim random k)) = false /\
  time (fst (new_DiffusionSim random k)) = 0 /\
  numAtoms (fst (new_DiffusionSim random k)) = 2000%nat /\
  (forall i, (i < 2000)%nat -> seededAt (atoms (fst (new_DiffusionSim random k))) i) /\
  (forall j, (2000 * 3 <= j < MAX_ATOMS * 3)%nat ->
             atoms (fst (new_DiffusionSim random k)) !! j = Some 0) /\
  snd (new_DiffusionSim random k) = (k + 4000)%nat /\
  wellFormed (fst (new_DiffusionSim random k)).
Proof.
  intros Hu. unfold new_DiffusionSim.
  set (s0 := mkSim 1 20 0.50 2000 0 false 1.0 (replicate (MAX_ATOMS * 3) 0)).
  assert (Hn0 : numAtoms s0 = 2000%nat) by reflexivity.
  assert (Ha0 : atoms s0 = replicate (MAX_ATOMS * 3) 0) by reflexivity.
  split; [rewrite reset_caseNum; reflexivity |].
  split; [rewrite reset_gamma; reflexivity |].
  split; [rewrite reset_lambda; unfold s0; cbn [lambda]; lra |].
  split; [rewrite reset_speed; unfold s0; cbn [speed]; lra |].
  split; [rewrite reset_running; reflexivity |].
  split; [apply reset_time |].
  split; [rewrite reset_numAtoms; exact Hn0 |].
  split; [| split; [| split]].
  - intros i Hi. rewrite reset_run. cbn [fst atoms set_atoms set_time].
    apply seed_loop_seeded; [exact Hu |]. left. rewrite Hn0. apply in_seq. lia.
  - intros j Hj. rewrite reset_run. cbn [fst atoms set_atoms set_time].
    rewrite seed_loop_above.
    + rewrite Ha0. apply lookup_replicate_2. lia.
    + apply Forall_forall. intros i Hi. apply elem_of_seq in Hi.
      rewrite Hn0 in Hi. lia.
  - rewrite reset_run. cbn [snd]. rewrite seed_loop_draws, length_seq, Hn0. lia.
  - apply reset_wellFormed; [exact Hu | |].
    + rewrite Hn0. unfold MAX_ATOMS. lia.
    + rewrite Ha0. apply length_replicate.
Qed.

Lemma constructor_builds_well_formed_engine_witness :
  wellFormed sim0 /\ atoms sim0 !! (MAX_ATOMS * 3 - 1)%nat = Some 0.
Proof.
  destruct (constructor_builds_well_formed_engine coin 0%nat coin_uniform01)
    as (_ & _ & _ & _ & _ & _ & _ & _ & Hzero & _ & Hwf).
  split; [exact Hwf |]. apply Hzero. unfold MAX_ATOMS. lia.
Defined.

(** X16. Every engine state produced from a newly constructed engine by
    [reset], [setCase], [setNumAtoms] with a count of at most [MAX_ATOMS],
    [step] with a jump length of at most the box width, play and pause, and
    assignments to [gamma], [lambda] and [speed] is well formed: the count
    is within the capacity, the buffer has [3 * MAX_ATOMS] slots, and every
    active particle is inside the domain of the active case and inside the
    box. *)
Theorem reachable_engines_are_well_formed random s k :
  uniform01 random -> reachable random s k -> wellFormed s.
Proof.
  intros Hu Hreach.
  induction Hreach as [k | s k _ IH | n s k s' _ IH Hrun | n s k s' _ IH Hn Hrun
                      | dt s k _ IH Hlam | g l v s k _ IH | b s k _ IH].
  - unfold new_DiffusionSim. apply reset_wellFormed; [exact Hu | |].
    + cbn [numAtoms]. unfold MAX_ATOMS. lia.
    + cbn [atoms]. apply length_replicate.
  - destruct IH as (Hcap & Hlen & _). apply reset_wellFormed; assumption.
  - destruct IH as (Hcap & Hlen & _).
    rewrite setCase_run in Hrun. injection Hrun as <-.
    apply reset_wellFormed; assumption.
  - apply (setNumAtoms_wellFormed random n s k); assumption.
  - apply step_wellFormed; assumption.
  - exact IH.
  - exact IH.
Qed.

Lemma reachable_engines_are_well_formed_witness :
  wellFormed
    (fst (step coin 0.05 (set_running true (fst (new_DiffusionSim coin 0%nat)))
               (snd (new_DiffusionSim coin 0%nat)))).
Proof.
  assert (Hlam : - DOMAIN_WIDTH
                 <= lambda (set_running true (fst (new_DiffusionSim coin 0%nat)))
                 <= DOMAIN_WIDTH).
  { generalize sim0_lambda. unfold sim0. generalize (fst (new_DiffusionSim coin 0%nat)).
    intros s Hs. cbn [lambda set_running]. rewrite Hs. unfold DOMAIN_WIDTH. lra. }
  exact (reachable_engines_are_well_formed coin _ _ coin_uniform01
           (reach_step coin 0.05 _ _
              (reach_running coin true _ _ (reach_new coin 0%nat)) Hlam)).
Defined.

(** ** Reading the sliders *)

Lemma readControls_at_fixpoint random g l v n s k :
  gamma s = g -> lambda s = l / 100 -> speed s = v / 10 -> numAtoms s = n ->
  readControls random g l v n s k = (Normal s, k).
Proof.
  intros <- Hl Hv <-. unfold readControls. cbv zeta.
  cbn [numAtoms set_gamma set_lambda set_speed].
  rewrite Nat.eqb_refl. cbn [negb]. unfold ret.
  rewrite <- Hl, <- Hv. destruct s; reflexivity.
Qed.

(** X17. [readControls] stores the slider values ([lambda] in hundredths,
    the speed in tenths) and the particle count, so the diffusion
    coefficient becomes [gamma * (lambda/100)^2 / 6]; reading the same
    slider values again changes nothing and draws no random number. *)
Theorem readControls_is_idempotent random g l v n s k s1 k' :
  fst (readControls random g l v n s k) = Normal s1 ->
  gamma s1 = g /\ lambda s1 = l / 100 /\ speed s1 = v / 10 /\
  numAtoms s1 = n /\ D s1 = g * (l / 100) ^ 2 / 6 /\
  readControls random g l v n s1 k' = (Normal s1, k').
Proof.
  intros Hrun.
  assert (H : gamma s1 = g /\ lambda s1 = l / 100 /\ speed s1 = v / 10 /\
              numAtoms s1 = n).
  { unfold readControls in Hrun. cbv zeta in Hrun.
    cbn [numAtoms set_gamma set_lambda set_speed] in Hrun.
    destruct (Nat.eqb_spec n (numAtoms s)) as [Heq | Hne]; cbn [negb] in Hrun.
    - unfold ret in Hrun. cbn [fst] in Hrun. injection Hrun as <-.
      cbn. repeat split. symmetry. exact Heq.
    - rewrite setNumAtoms_run in Hrun. injection Hrun as <-.
      cbn [numAtoms set_gamma set_lambda set_speed].
      destruct (numAtoms s <? n)%nat; cbn; repeat split. }
  destruct H as (Hg & Hl & Hv & Hn).
  repeat (split; [assumption |]). split.
  - unfold D. rewrite Hg, Hl. simpl. field.
  - apply readControls_at_fixpoint; assumption.
Qed.

Lemma readControls_is_idempotent_witness :
  readControls coin 30 80 15 4 (set_numAtoms 4 (set_speed (15 / 10)
     (set_lambda (80 / 100) (set_gamma 30 four_particles)))) 7%nat
  = (Normal (set_numAtoms 4 (set_speed (15 / 10)
       (set_lambda (80 / 100) (set_gamma 30 four_particles)))), 7%nat).
Proof.
  apply (readControls_is_idempotent coin 30 80 15 4 four_particles 0%nat _ 7%nat).
  reflexivity.
Defined.

(** ** The bars of the plot *)


Lemma bars_nonnegative (d : R) (l : list nat) :
  0 < d -> Forall (fun v => 0 <= v) ((fun h => INR h / d) <$> l).
Proof.
  intros Hd. apply Forall_fmap. apply Forall_forall. intros h _.
  simpl. apply Rmult_le_pos; [apply pos_INR |].
  left. apply Rinv_0_lt_compat. exact Hd.
Qed.

(** X18. In case 1 the plot has one bar per bin, none negative, and bar 0
    is 1 whenever bin 0 holds a particle (and 0 when the bin is empty,
    where the counts are divided by 1 instead). *)
Theorem histPlot_case1_is_relative_to_bin_0 s :
  caseNum s = 1%Z ->
  length (histPlot s) = NUM_BINS /\
  Forall (fun v => 0 <= v) (histPlot s) /\
  histPlot s !! 0%nat
  = Some (if (length (List.filter (inBin s 0) (seq 0 (numAtoms s))) =? 0)%nat
          then 0 else 1).
Proof.
  intros Hc. unfold histPlot. cbv zeta. rewrite Hc. change (1 =? 1)%Z with true.
  cbv iota.
  destruct (histogram_sum_counts_window s) as [_ Hlen].
  assert (Hb : (0 < NUM_BINS)%nat) by (unfold NUM_BINS; lia).
  pose proof (histogram_bin_loop s 0 (seq 0 (numAtoms s))
                (replicate NUM_BINS 0%nat) 0%nat Hb (length_replicate _ _)
                (lookup_replicate_2 _ _ _ Hb)) as H0.
  cbv zeta in H0. rewrite Nat.add_0_l in H0.
  fold (getHistogram s) in H0.
  set (c0 := length (List.filter (inBin s 0) (seq 0 (numAtoms s)))) in *.
  rewrite H0.
  split; [rewrite length_fmap; exact Hlen |]. split.
  - apply bars_nonnegative. destruct c0; [lra |].
    apply lt_0_INR. lia.
  - rewrite list_lookup_fmap, H0. cbn [fmap option_fmap option_map]. f_equal.
    destruct c0 as [|c]; cbn [Nat.eqb].
    + change (INR 0) with 0. unfold Rdiv. ring.
    + unfold Rdiv. apply Rinv_r. apply not_0_INR. lia.
Qed.

Lemma histPlot_case1_is_relative_to_bin_0_witness :
  length (histPlot four_particles) = NUM_BINS /\
  Forall (fun v => 0 <= v) (histPlot four_particles).
Proof.
  destruct (histPlot_case1_is_relative_to_bin_0 four_particles) as (Hl & Hpos & _);
    [reflexivity |].
  split; [exact Hl | exact Hpos].
Defined.



(** ** Case numbers other than 1, 2 and 3 *)

(** X20. A case number other than 1 and 2 selects the thin-film behaviour
    of case 3 everywhere: the same domain and visible window, the same x
    rule (reflection at 0), the same histogram and analytical solution, and
    a step that moves the particles in the same way. *)
Theorem other_case_numbers_behave_as_case_3 random c s x dt k :
  c <> 1%Z -> c <> 2%Z ->
  domainMin (set_caseNum c s) = domainMin (set_caseNum 3 s) /\
  domainMax (set_caseNum c s) = domainMax (set_caseNum 3 s) /\
  visibleMin (set_caseNum c s) = visibleMin (set_caseNum 3 s) /\
  visibleMax (set_caseNum c s) = visibleMax (set_caseNum 3 s) /\
  boundaryX c (domainMin (set_caseNum c s)) (domainMax (set_caseNum c s)) x
    = boundaryX 3 (domainMin (set_caseNum 3 s)) (domainMax (set_caseNum 3 s)) x /\
  analyticalAt x (set_caseNum c s) = analyticalAt x (set_caseNum 3 s) /\
  getHistogram (set_caseNum c s) = getHistogram (set_caseNum 3 s) /\
  atoms (fst (step random dt (set_caseNum c s) k))
    = atoms (fst (step random dt (set_caseNum 3 s) k)) /\
  snd (step random dt (set_caseNum c s) k)
    = snd (step random dt (set_caseNum 3 s) k).
Proof.
  intros H1 H2.
  assert (Hstep : atoms (fst (step random dt (set_caseNum c s) k))
                  = atoms (fst (step random dt (set_caseNum 3 s) k)) /\
                  snd (step random dt (set_caseNum c s) k)
                  = snd (step random dt (set_caseNum 3 s) k)).
  { unfold step. cbn [running set_caseNum].
    destruct (running s); [| split; reflexivity]. cbn [negb].
    cbv zeta. rewrite !bind_run. unfold ret. cbn [fst snd atoms set_time set_atoms].
    unfold visit, jump, boundaryX, domainMin, domainMax.
    cbn [caseNum gamma lambda speed numAtoms atoms set_caseNum].
    destruct (Z.eqb_spec c 1) as [|_]; [contradiction |].
    destruct (Z.eqb_spec c 2) as [|_]; [contradiction |].
    change (3 =? 1)%Z with false. change (3 =? 2)%Z with false.
    split; reflexivity. }
  unfold getHistogram, analyticalAt, boundaryX, D.
  unfold domainMin, domainMax, visibleMin, visibleMax.
  cbn [caseNum gamma lambda time atoms numAtoms set_caseNum].
  destruct (Z.eqb_spec c 1) as [|_]; [contradiction |].
  destruct (Z.eqb_spec c 2) as [|_]; [contradiction |].
  change (3 =? 1)%Z with false. change (3 =? 2)%Z with false.
  repeat (split; [reflexivity |]). exact Hstep.
Qed.

Lemma other_case_numbers_behave_as_case_3_witness :
  boundaryX 4 (domainMin (set_caseNum 4 sim0)) (domainMax (set_caseNum 4 sim0)) (-3)
  = boundaryX 3 (domainMin (set_caseNum 3 sim0)) (domainMax (set_caseNum 3 sim0)) (-3).
Proof.
  destruct (other_case_numbers_behave_as_case_3 coin 4 sim0 (-3) 0.05 0%nat)
    as (_ & _ & _ & _ & H & _); [lia | lia | exact H].
Defined.

Lemma erfc_reflection_witness : erfc (- 1) = 2 - erfc 1.
Proof. apply (erfc_reflection 1). lra. Defined.

Lemma analyticalAt_range_witness :
  0 <= analyticalAt 1 (set_time 1 four_particles) <= 1 /\
  0 <= analyticalAt (-1) (set_time 1 four_particles) <= 2.
Proof.
  destruct (analyticalAt_range 1 (set_time 1 four_particles)) as (H0 & H1 & _).
  destruct (analyticalAt_range (-1) (set_time 1 four_particles)) as (H0' & _ & H2).
  split.
  - split; [exact H0 | apply H1; [reflexivity | lra]].
  - split; [exact H0' | apply H2; reflexivity].
Defined.

(** ** The boundary rules, as [step] applies them *)

(** The inner loop of [step] when every draw is below the jump probability:
    every particle of the loop jumps once, particle [i] with the draws that
    follow the [3 * (i - j0)] draws of the particles before it. *)
Lemma all_jump_loop random c lam xMin xMax hw p :
  (forall j, random j < p) ->
  forall cnt j0 a k0,
    snd (forM (visit random c lam xMin xMax hw p) (seq j0 cnt) a k0)
      = (k0 + 3 * cnt)%nat /\
    forall i,
      ((j0 <= i < j0 + cnt)%nat ->
         fst (forM (visit random c lam xMin xMax hw p) (seq j0 cnt) a k0)
           !! (i * 3)%nat
         = (fun x => boundaryX c xMin xMax
                       (x + lam * sinT_at random (k0 + 3 * (i - j0) + 1)
                              * cos (phi_at random (k0 + 3 * (i - j0) + 1))))
             <$> a !! (i * 3)%nat /\
         fst (forM (visit random c lam xMin xMax hw p) (seq j0 cnt) a k0)
           !! (i * 3 + 1)%nat
         = (fun y => wrap hw
                       (y + lam * sinT_at random (k0 + 3 * (i - j0) + 1)
                              * sin (phi_at random (k0 + 3 * (i - j0) + 1))))
             <$> a !! (i * 3 + 1)%nat /\
         fst (forM (visit random c lam xMin xMax hw p) (seq j0 cnt) a k0)
           !! (i * 3 + 2)%nat
         = (fun z => wrap hw
                       (z + lam * cosT_at random (k0 + 3 * (i - j0) + 1)))
             <$> a !! (i * 3 + 2)%nat) /\
      ((i < j0 \/ j0 + cnt <= i)%nat ->
         fst (forM (visit random c lam xMin xMax hw p) (seq j0 cnt) a k0)
           !! (i * 3)%nat = a !! (i * 3)%nat /\
         fst (forM (visit random c lam xMin xMax hw p) (seq j0 cnt) a k0)
           !! (i * 3 + 1)%nat = a !! (i * 3 + 1)%nat /\
         fst (forM (visit random c lam xMin xMax hw p) (seq j0 cnt) a k0)
           !! (i * 3 + 2)%nat = a !! (i * 3 + 2)%nat).
Proof.
  intros Hp. induction cnt as [|cnt IH]; intros j0 a k0.
  - simpl. split; [unfold ret; simpl; lia |].
    intros i. split; [lia | intros _; repeat split].
  - cbn [seq forM]. rewrite bind_run, visit_jump by apply Hp.
    rewrite jump_draws.
    destruct (IH (S j0) (fst (jump random c lam xMin xMax hw j0 a (S k0)))
                 (S (S (S k0)))) as [Hdraws Hslots].
    split; [rewrite Hdraws; lia |].
    intros i. destruct (Hslots i) as [Hin Hout].
    split.
    + intros Hi. destruct (Nat.eq_dec i j0) as [-> | Hne].
      * destruct Hout as (Hx & Hy & Hz); [lia |].
        rewrite Hx, Hy, Hz, jump_x, jump_y, jump_z.
        replace (k0 + 3 * (j0 - j0) + 1)%nat with (S k0) by lia.
        repeat split.
      * destruct Hin as (Hx & Hy & Hz); [lia |].
        rewrite Hx, Hy, Hz, !jump_other by lia.
        replace (S (S (S k0)) + 3 * (i - S j0) + 1)%nat
          with (k0 + 3 * (i - j0) + 1)%nat by lia.
        repeat split.
    + intros Hi. destruct Hout as (Hx & Hy & Hz); [lia |].
      rewrite Hx, Hy, Hz, !jump_other by lia. repeat split.
Qed.

(** One sub-step in which every particle jumps: where [step] leaves the
    three coordinates of an active particle. *)
Lemma step_all_jump random dt s k i :
  running s = true ->
  gamma s * (dt * speed s) <= 1 ->
  (forall j, random j < gamma s * (dt * speed s)) ->
  (i < numAtoms s)%nat ->
  atoms (fst (step random dt s k)) !! (i * 3)%nat
  = (fun x => boundaryX (caseNum s) (domainMin s) (domainMax s)
                (x + lambda s * sinT_at random (k + 3 * i + 1)
                       * cos (phi_at random (k + 3 * i + 1))))
      <$> atoms s !! (i * 3)%nat /\
  atoms (fst (step random dt s k)) !! (i * 3 + 1)%nat
  = (fun y => wrap (DOMAIN_WIDTH / 2)
                (y + lambda s * sinT_at random (k + 3 * i + 1)
                       * sin (phi_at random (k + 3 * i + 1))))
      <$> atoms s !! (i * 3 + 1)%nat /\
  atoms (fst (step random dt s k)) !! (i * 3 + 2)%nat
  = (fun z => wrap (DOMAIN_WIDTH / 2)
                (z + lambda s * cosT_at random (k + 3 * i + 1)))
      <$> atoms s !! (i * 3 + 2)%nat.
Proof.
  intros Hrun Hone Hp Hi.
  assert (Hsub : subSteps dt s = 1%Z).
  { unfold subSteps.
    pose proof (Zceil_bound (gamma s * (dt * speed s))) as [Hc _].
    assert ((Zceil (gamma s * (dt * speed s)) < 2)%Z) by (apply lt_IZR; lra).
    lia. }
  assert (Hprob : jumpProbability dt s = gamma s * (dt * speed s)).
  { unfold jumpProbability. rewrite Hsub. unfold Rdiv. rewrite Rinv_1. ring. }
  rewrite step_running by exact Hrun.
  cbn [fst atoms set_time set_atoms].
  rewrite Hsub, Hprob. change (Z.to_nat 1) with 1%nat.
  cbn [seq forM]. rewrite bind_run. unfold ret. cbn [fst].
  destruct (all_jump_loop random (caseNum s) (lambda s) (domainMin s)
              (domainMax s) (DOMAIN_WIDTH / 2) (gamma s * (dt * speed s)) Hp
              (numAtoms s) 0%nat (atoms s) k) as [_ Hslots].
  destruct (Hslots i) as [Hin _].
  rewrite Nat.sub_0_r in Hin. apply Hin. lia.
Qed.

Lemma lowDraws_direction m :
  cosT_at lowDraws m = -1 /\ sinT_at lowDraws m = 0.
Proof.
  assert (Hc : cosT_at lowDraws m = -1) by (unfold cosT_at, lowDraws; lra).
  split; [exact Hc |]. unfold sinT_at. rewrite Hc.
  replace (1 - -1 * -1) with 0 by lra. apply sqrt_0.
Qed.

Lemma boundaryX_rules s x :
  (caseNum s = 1%Z ->
     (x < 0 -> boundaryX (caseNum s) (domainMin s) (domainMax s) x = 0) /\
     (x > domainMax s ->
        boundaryX (caseNum s) (domainMin s) (domainMax s) x = domainMax s) /\
     (0 <= x <= domainMax s ->
        boundaryX (caseNum s) (domainMin s) (domainMax s) x = x)) /\
  (caseNum s = 2%Z ->
     (x < domainMin s ->
        boundaryX (caseNum s) (domainMin s) (domainMax s) x = domainMin s) /\
     (x > domainMax s ->
        boundaryX (caseNum s) (domainMin s) (domainMax s) x = domainMax s) /\
     (domainMin s <= x <= domainMax s ->
        boundaryX (caseNum s) (domainMin s) (domainMax s) x = x)) /\
  (caseNum s = 3%Z ->
     (x < 0 -> - x <= domainMax s ->
        boundaryX (caseNum s) (domainMin s) (domainMax s) x = - x) /\
     (x < 0 -> - x > domainMax s ->
        boundaryX (caseNum s) (domainMin s) (domainMax s) x = domainMax s) /\
     (x > domainMax s ->
        boundaryX (caseNum s) (domainMin s) (domainMax s) x = domainMax s) /\
     (0 <= x <= domainMax s ->
        boundaryX (caseNum s) (domainMin s) (domainMax s) x = x)).
Proof.
  destruct (domain_bounds s) as [(Hc & Hmin & Hmax) | (Hc & Hmin & Hmax)];
    rewrite Hmin, Hmax; unfold boundaryX;
    (split; [| split]); intros Hcase; rewrite Hcase in *; try congruence;
    simpl Z.eqb; cbv iota zeta; repeat split; intros; rcases.
Qed.

(** C5. The x of a particle that jumps in [step] is stored as the x rule of
    the active case applied to the displaced ("raw") x, and that rule is:
    case 1, a raw x below 0 gives 0 and one above [xMax] gives [xMax];
    case 2, below [xMin] gives [xMin] and above [xMax] gives [xMax]; case 3,
    below 0 gives the reflection [-x], clamped to [xMax] when it exceeds
    it, and above [xMax] gives [xMax]; a raw x inside the bounds is stored
    as it is. The first part states the rule for every raw x, the second
    that every jump stores the rule of the displaced x, the third that
    [step] does so for each active particle (in a step of one sub-step in
    which every particle jumps, where the draws of each jump are known). *)
Theorem boundary_rule_per_case random dt s k :
  (forall x,
     (caseNum s = 1%Z ->
        (x < 0 -> boundaryX (caseNum s) (domainMin s) (domainMax s) x = 0) /\
        (x > domainMax s ->
           boundaryX (caseNum s) (domainMin s) (domainMax s) x = domainMax s) /\
        (0 <= x <= domainMax s ->
           boundaryX (caseNum s) (domainMin s) (domainMax s) x = x)) /\
     (caseNum s = 2%Z ->
        (x < domainMin s ->
           boundaryX (caseNum s) (domainMin s) (domainMax s) x = domainMin s) /\
        (x > domainMax s ->
           boundaryX (caseNum s) (domainMin s) (domainMax s) x = domainMax s) /\
        (domainMin s <= x <= domainMax s ->
           boundaryX (caseNum s) (domainMin s) (domainMax s) x = x)) /\
     (caseNum s = 3%Z ->
        (x < 0 -> - x <= domainMax s ->
           boundaryX (caseNum s) (domainMin s) (domainMax s) x = - x) /\
        (x < 0 -> - x > domainMax s ->
           boundaryX (caseNum s) (domainMin s) (domainMax s) x = domainMax s) /\
        (x > domainMax s ->
           boundaryX (caseNum s) (domainMin s) (domainMax s) x = domainMax s) /\
        (0 <= x <= domainMax s ->
           boundaryX (caseNum s) (domainMin s) (domainMax s) x = x))) /\
  (forall i a m,
     fst (jump random (caseNum s) (lambda s) (domainMin s) (domainMax s)
               (DOMAIN_WIDTH / 2) i a m) !! (i * 3)%nat
     = (fun x0 => boundaryX (caseNum s) (domainMin s) (domainMax s)
                    (x0 + lambda s * sinT_at random m * cos (phi_at random m)))
         <$> a !! (i * 3)%nat) /\
  (running s = true ->
   gamma s * (dt * speed s) <= 1 ->
   (forall j, random j < gamma s * (dt * speed s)) ->
   forall i x0,
     (i < numAtoms s)%nat -> atoms s !! (i * 3)%nat = Some x0 ->
     atoms (fst (step random dt s k)) !! (i * 3)%nat
     = Some (boundaryX (caseNum s) (domainMin s) (domainMax s)
               (x0 + lambda s * sinT_at random (k + 3 * i + 1)
                      * cos (phi_at random (k + 3 * i + 1))))).
Proof.
  split; [intros x; apply boundaryX_rules |].
  split; [intros i a m; apply jump_x |].
  intros Hrun Hone Hp i x0 Hi Hx.
  destruct (step_all_jump random dt s k i Hrun Hone Hp Hi) as (H & _ & _).
  rewrite H, Hx. reflexivity.
Qed.

Lemma boundary_rule_per_case_witness :
  atoms (fst (step lowDraws 0.05 (probe 1 (-3) 0 0) 0%nat)) !! 0%nat = Some 0 /\
  atoms (fst (step lowDraws 0.05 (probe 1 150 0 0) 0%nat)) !! 0%nat = Some 100 /\
  atoms (fst (step lowDraws 0.05 (probe 2 (-60) 0 0) 0%nat)) !! 0%nat = Some (-50) /\
  atoms (fst (step lowDraws 0.05 (probe 3 (-3) 0 0) 0%nat)) !! 0%nat = Some 3.
Proof.
  assert (Hstep : forall c x0,
            atoms (fst (step lowDraws 0.05 (probe c x0 0 0) 0%nat)) !! 0%nat
            = Some (boundaryX c (domainMin (probe c x0 0 0))
                              (domainMax (probe c x0 0 0)) x0)).
  { intros c x0.
    destruct (boundary_rule_per_case lowDraws 0.05 (probe c x0 0 0) 0%nat)
      as (_ & _ & H).
    assert (Hone : gamma (probe c x0 0 0) * (0.05 * speed (probe c x0 0 0)) <= 1)
      by (cbn [gamma speed probe]; lra).
    assert (Hp : forall j, lowDraws j
                           < gamma (probe c x0 0 0) * (0.05 * speed (probe c x0 0 0)))
      by (intros j; cbn [gamma speed probe]; unfold lowDraws; lra).
    assert (Hi : (0 < numAtoms (probe c x0 0 0))%nat) by (cbn [numAtoms probe]; lia).
    pose proof (H eq_refl Hone Hp 0%nat x0 Hi eq_refl) as E.
    change (0 * 3)%nat with 0%nat in E. rewrite E.
    destruct (lowDraws_direction (0 + 3 * 0 + 1)) as [_ ->].
    cbn [caseNum lambda probe]. f_equal. f_equal. lra. }
  assert (Hb1 : forall x0, domainMin (probe 1 x0 0 0) = 0 /\
                           domainMax (probe 1 x0 0 0) = 100)
    by (intros; unfold domainMin, domainMax, DOMAIN_LENGTH; simpl; split; lra).
  assert (Hb2 : forall x0, domainMin (probe 2 x0 0 0) = -50 /\
                           domainMax (probe 2 x0 0 0) = 50)
    by (intros; unfold domainMin, domainMax, DOMAIN_LENGTH; simpl; split; lra).
  assert (Hb3 : forall x0, domainMin (probe 3 x0 0 0) = 0 /\
                           domainMax (probe 3 x0 0 0) = 100)
    by (intros; unfold domainMin, domainMax, DOMAIN_LENGTH; simpl; split; lra).
  destruct (boundary_rule_per_case lowDraws 0.05 (probe 1 (-3) 0 0) 0%nat)
    as (R1 & _ & _).
  destruct (boundary_rule_per_case lowDraws 0.05 (probe 1 150 0 0) 0%nat)
    as (R1' & _ & _).
  destruct (boundary_rule_per_case lowDraws 0.05 (probe 2 (-60) 0 0) 0%nat)
    as (R2 & _ & _).
  destruct (boundary_rule_per_case lowDraws 0.05 (probe 3 (-3) 0 0) 0%nat)
    as (R3 & _ & _).
  destruct (R1 (-3)) as (R1a & _ & _). destruct (R1a eq_refl) as (Ha & _ & _).
  destruct (R1' 150) as (R1b & _ & _). destruct (R1b eq_refl) as (_ & Hb & _).
  destruct (R2 (-60)) as (_ & R2a & _). destruct (R2a eq_refl) as (Hc & _ & _).
  destruct (R3 (-3)) as (_ & _ & R3a). destruct (R3a eq_refl) as (Hd & _ & _ & _).
  destruct (Hb1 (-3)) as [E1 E1']. destruct (Hb1 150) as [E2 E2'].
  destruct (Hb2 (-60)) as [E3 E3']. destruct (Hb3 (-3)) as [E4 E4'].
  rewrite !Hstep.
  split; [f_equal; apply Ha; lra |].
  split; [f_equal; transitivity (domainMax (probe 1 150 0 0));
          [apply Hb; rewrite E2'; lra | exact E2'] |].
  split; [f_equal; transitivity (domainMin (probe 2 (-60) 0 0));
          [apply Hc; rewrite E3; lra | exact E3] |].
  f_equal. transitivity (- (-3)); [apply Hd; [lra | rewrite E4'; lra] | lra].
Defined.

(** C6, as the code has it. The y and z of a particle that jumps in [step]
    are stored as the wrap of the displaced ("raw") value. A raw value
    below [-W/2] is stored as raw + W and one above [W/2] as raw - W: a
    shift by exactly one width towards the box, an integer multiple of [W];
    a raw value inside the box is stored as it is. The stored value lies in
    [[-W/2, W/2]] when the raw value is within [[-3W/2, 3W/2]], which is the
    case whenever the particle was inside the box and the jump length is at
    most [W]; [step] then keeps every active particle inside the box. *)
Theorem wrap_shifts_by_one_width random dt s k :
  (forall y,
     (y < - (DOMAIN_WIDTH / 2) ->
        wrap (DOMAIN_WIDTH / 2) y = y + IZR 1 * DOMAIN_WIDTH) /\
     (DOMAIN_WIDTH / 2 < y ->
        wrap (DOMAIN_WIDTH / 2) y = y + IZR (-1) * DOMAIN_WIDTH) /\
     (- (DOMAIN_WIDTH / 2) <= y <= DOMAIN_WIDTH / 2 ->
        wrap (DOMAIN_WIDTH / 2) y = y) /\
     (- 3 * (DOMAIN_WIDTH / 2) <= y <= 3 * (DOMAIN_WIDTH / 2) ->
        - (DOMAIN_WIDTH / 2) <= wrap (DOMAIN_WIDTH / 2) y <= DOMAIN_WIDTH / 2)) /\
  (forall i a m,
     fst (jump random (caseNum s) (lambda s) (domainMin s) (domainMax s)
               (DOMAIN_WIDTH / 2) i a m) !! (i * 3 + 1)%nat
     = (fun y0 => wrap (DOMAIN_WIDTH / 2)
                    (y0 + lambda s * sinT_at random m * sin (phi_at random m)))
         <$> a !! (i * 3 + 1)%nat /\
     fst (jump random (caseNum s) (lambda s) (domainMin s) (domainMax s)
               (DOMAIN_WIDTH / 2) i a m) !! (i * 3 + 2)%nat
     = (fun z0 => wrap (DOMAIN_WIDTH / 2) (z0 + lambda s * cosT_at random m))
         <$> a !! (i * 3 + 2)%nat) /\
  (running s = true ->
   gamma s * (dt * speed s) <= 1 ->
   (forall j, random j < gamma s * (dt * speed s)) ->
   forall i y0 z0,
     (i < numAtoms s)%nat ->
     atoms s !! (i * 3 + 1)%nat = Some y0 ->
     atoms s !! (i * 3 + 2)%nat = Some z0 ->
     atoms (fst (step random dt s k)) !! (i * 3 + 1)%nat
     = Some (wrap (DOMAIN_WIDTH / 2)
               (y0 + lambda s * sinT_at random (k + 3 * i + 1)
                      * sin (phi_at random (k + 3 * i + 1)))) /\
     atoms (fst (step random dt s k)) !! (i * 3 + 2)%nat
     = Some (wrap (DOMAIN_WIDTH / 2)
               (z0 + lambda s * cosT_at random (k + 3 * i + 1)))) /\
  (uniform01 random ->
   - DOMAIN_WIDTH <= lambda s <= DOMAIN_WIDTH ->
   (forall m c,
      - (DOMAIN_WIDTH / 2) <= c <= DOMAIN_WIDTH / 2 ->
      - 3 * (DOMAIN_WIDTH / 2)
        <= c + lambda s * sinT_at random m * sin (phi_at random m)
        <= 3 * (DOMAIN_WIDTH / 2) /\
      - 3 * (DOMAIN_WIDTH / 2)
        <= c + lambda s * cosT_at random m
        <= 3 * (DOMAIN_WIDTH / 2)) /\
   (inBox s -> inBox (fst (step random dt s k)))).
Proof.
  split; [| split; [| split]].
  - intros y.
    destruct (wrap_cases (DOMAIN_WIDTH / 2) y)
      as [(Hy & ->) | [(Hy1 & Hy2 & ->) | (Hy & ->)]];
      unfold DOMAIN_WIDTH in *; repeat split; intros; lra.
  - intros i a m. split; [apply jump_y | apply jump_z].
  - intros Hrun Hone Hp i y0 z0 Hi Hy Hz.
    destruct (step_all_jump random dt s k i Hrun Hone Hp Hi) as (_ & H1 & H2).
    rewrite H1, H2, Hy, Hz. split; reflexivity.
  - intros Hu Hlam. split; [| apply step_inBox; assumption].
    intros m c Hc.
    destruct (displacement_bounded random (lambda s) m Hu Hlam) as [Hdy Hdz].
    unfold DOMAIN_WIDTH in *. split; lra.
Qed.

Lemma wrap_shifts_by_one_width_witness :
  atoms (fst (step lowDraws 0.05 (probe 1 0 0 (-1.8)) 0%nat)) !! 2%nat = Some 1.7 /\
  wrap (DOMAIN_WIDTH / 2) (-5) = -1 /\
  wrap (DOMAIN_WIDTH / 2) 5 = 1 /\
  inBox (fst (step lowDraws 0.05 (probe 1 0 0 (-1.8)) 0%nat)).
Proof.
  destruct (wrap_shifts_by_one_width lowDraws 0.05 (probe 1 0 0 (-1.8)) 0%nat)
    as (Hwrap & _ & Hstep & Hbox).
  assert (Hone : gamma (probe 1 0 0 (-1.8)) * (0.05 * speed (probe 1 0 0 (-1.8))) <= 1)
    by (cbn [gamma speed probe]; lra).
  assert (Hp : forall j, lowDraws j
                 < gamma (probe 1 0 0 (-1.8)) * (0.05 * speed (probe 1 0 0 (-1.8))))
    by (intros j; cbn [gamma speed probe]; unfold lowDraws; lra).
  assert (Hi : (0 < numAtoms (probe 1 0 0 (-1.8)))%nat)
    by (cbn [numAtoms probe]; lia).
  destruct (Hstep eq_refl Hone Hp 0%nat 0 (-1.8) Hi eq_refl eq_refl) as [_ Hz].
  change (0 * 3 + 2)%nat with 2%nat in Hz.
  destruct (lowDraws_direction (0 + 3 * 0 + 1)) as [Hc _].
  rewrite Hc in Hz. cbn [lambda probe] in Hz.
  destruct (Hwrap (-1.8 + 0.5 * -1)) as (Hlow & _ & _ & _).
  destruct (Hwrap (-5)) as (Hlow5 & _ & _ & _).
  destruct (Hwrap 5) as (_ & Hhigh5 & _ & _).
  split; [rewrite Hz, Hlow by (unfold DOMAIN_WIDTH; lra);
          f_equal; unfold DOMAIN_WIDTH; lra |].
  split; [rewrite Hlow5 by (unfold DOMAIN_WIDTH; lra); unfold DOMAIN_WIDTH; lra |].
  split; [rewrite Hhigh5 by (unfold DOMAIN_WIDTH; lra); unfold DOMAIN_WIDTH; lra |].
  destruct (Hbox lowDraws_uniform01) as [_ Hkeep].
  - cbn [lambda probe]. unfold DOMAIN_WIDTH. lra.
  - apply Hkeep. intros i c Hlt Hc'. cbn [numAtoms probe] in Hlt.
    assert (i = 0%nat) as -> by lia. simpl in Hc'. unfold DOMAIN_WIDTH.
    destruct Hc' as [Hc' | Hc']; injection Hc' as <-; lra.
Defined.
